(** * Snowflake identifiers: a shallow embedding of [src/index.ts]

    The development follows the source file top to bottom.  The JavaScript
    values the program manipulates come first (module [JS]): the [number]
    type with the operations the program applies to it, [bigint] as [Z], the
    conversions between the two, and the decimal text of a [bigint].  The
    program comes next (constants, helpers, the generator, the parser),
    written in a small monad that threads the mutable world (wall clock,
    console, generator counters) and the thrown exceptions.  Then the
    vocabulary of the statements, the facts about the values, and the
    properties of the program: packing and parsing, one call of the
    generator, clock drift, the counters, the warning flag, the ordering of
    the identifiers, and construction.

    The wall clock is the list of the readings [Date.now()] will return; a
    busy wait consumes readings until one is above [lastTimestamp], and a
    command that is still waiting when the list ends is [Unfinished].

    The module-level [defaultGenerator] and the wrapper [generateSnowflakeId]
    come last in the program: they run the generator either on the counters
    of the default generator, which the module keeps, or on fresh counters
    that are dropped after the call. *)

From Stdlib Require Import ZArith List String Ascii Bool Lia Sorted.
From Stdlib Require Import Decimal DecimalString DecimalZ DecimalPos.
Import ListNotations.

Local Open Scope Z_scope.

(* ===================================================================== *)
(** * JavaScript values *)
(* ===================================================================== *)

Module JS.

(** ** Numbers

    A JavaScript [number] is an IEEE-754 double.  The program only looks at
    whether a number is an integer, compares numbers, and converts between
    [number] and [bigint]; the finite values are therefore kept as exact
    dyadic rationals:

    - [NInt z]     the integral value [z];
    - [NFrac m e]  the non-integral value [(2m+1) / 2^e] (odd numerator, so
                   the representation is unique);
    - [NaN], [Infinity neg].

    Not every inhabitant is a double ([NInt (2^53+1)] is not); [is_double]
    singles out those that are.  Inputs of type [number] are doubles. *)

Inductive number : Type :=
| NInt (z : Z)
| NFrac (m : Z) (e : positive)
| NaN
| Infinity (neg : bool).

Definition bigint := Z.

(** Number of significant bits of [|z|]. *)
Definition bit_length (z : Z) : Z :=
  if z =? 0 then 0 else Z.log2 (Z.abs z) + 1.

(** Round the integer [z] to the nearest integer with a 53-bit significand,
    ties to even: the value of [Number(z)] whenever that value is finite. *)
Definition round53 (z : Z) : Z :=
  let a := Z.abs z in
  let n := bit_length z in
  if n <=? 53 then z
  else
    let sh := n - 53 in
    let q := Z.shiftr a sh in
    let r := Z.land a (Z.ones sh) in
    let half := Z.shiftl 1 (sh - 1) in
    let q' := if (half <? r) || ((r =? half) && Z.odd q) then q + 1 else q in
    Z.sgn z * Z.shiftl q' sh.

Definition is_double (n : number) : Prop :=
  match n with
  | NInt z => round53 z = z /\ Z.abs z < 2 ^ 1024
  | NFrac m e => bit_length (2 * m + 1) <= 53 /\ Z.pos e <= 1074
  | NaN | Infinity _ => True
  end.

(** [Number(b)] for a bigint [b]. *)
Definition Number_of_BigInt (b : bigint) : number :=
  let r := round53 b in
  if Z.abs r <? 2 ^ 1024 then NInt r else Infinity (b <? 0).

(** [BigInt(n)] for a number [n]: [None] stands for the [RangeError] thrown
    on every value that is not an integer. *)
Definition BigInt_of_number (n : number) : option bigint :=
  match n with
  | NInt z => Some z
  | _ => None
  end.

Definition Number_isInteger (n : number) : bool :=
  match n with
  | NInt _ => true
  | _ => false
  end.

(** Finite values as a numerator over a power of two. *)
Definition dyadic (n : number) : option (Z * Z) :=
  match n with
  | NInt z => Some (z, 0)
  | NFrac m e => Some (2 * m + 1, Z.pos e)
  | _ => None
  end.

(** Comparison; [None] when one side is [NaN] (every relational operator
    is then false). *)
Definition num_compare (a b : number) : option comparison :=
  match a, b with
  | NaN, _ | _, NaN => None
  | Infinity na, Infinity nb =>
      Some (if Bool.eqb na nb then Eq else if na then Lt else Gt)
  | Infinity na, _ => Some (if na then Lt else Gt)
  | _, Infinity nb => Some (if nb then Gt else Lt)
  | _, _ =>
      match dyadic a, dyadic b with
      | Some (x, e), Some (y, f) => Some (Z.compare (x * 2 ^ f) (y * 2 ^ e))
      | _, _ => None
      end
  end.

Definition num_lt (a b : number) : bool :=
  match num_compare a b with Some Lt => true | _ => false end.
Definition num_gt (a b : number) : bool :=
  match num_compare a b with Some Gt => true | _ => false end.
Definition num_ge (a b : number) : bool :=
  match num_compare a b with Some Gt | Some Eq => true | _ => false end.

(** The double nearest to [x / 2^e] (for [e >= 0]), overflow going to an
    infinity.  Used for the result of a subtraction, which never lands in
    the subnormal range inexactly. *)
Definition of_dyadic (x e : Z) : number :=
  if x =? 0 then NInt 0
  else
    let n := bit_length x in
    let y := if n <=? 53 then x
             else
               let sh := n - 53 in
               let a := Z.abs x in
               let q := Z.shiftr a sh in
               let r := Z.land a (Z.ones sh) in
               let half := Z.shiftl 1 (sh - 1) in
               let q' := if (half <? r) || ((r =? half) && Z.odd q)
                         then q + 1 else q in
               Z.sgn x * Z.shiftl q' sh in
    (* strip the common factors of two of [y / 2^e] *)
    let tz := Z.log2 (Z.land y (- y)) in
    let k := Z.min tz e in
    let y' := Z.shiftr y k in
    let e' := e - k in
    if e' =? 0 then
      (if Z.abs y' <? 2 ^ 1024 then NInt y' else Infinity (x <? 0))
    else NFrac (Z.shiftr y' 1) (Z.to_pos e').

(** [a - b] on numbers. *)
Definition num_sub (a b : number) : number :=
  match a, b with
  | NaN, _ | _, NaN => NaN
  | Infinity na, Infinity nb => if Bool.eqb na nb then NaN else Infinity na
  | Infinity na, _ => Infinity na
  | _, Infinity nb => Infinity (negb nb)
  | NInt x, NInt y => Number_of_BigInt (x - y)
  | _, _ =>
      match dyadic a, dyadic b with
      | Some (x, e), Some (y, f) => of_dyadic (x * 2 ^ f - y * 2 ^ e) (e + f)
      | _, _ => NaN
      end
  end.

(** ** 32-bit integer operators on numbers

    [&], [|] and [<<] convert their integral operands with [ToInt32] and
    work on the two's-complement bits. *)

Definition ToInt32 (z : Z) : Z := (z + 2 ^ 31) mod 2 ^ 32 - 2 ^ 31.

Definition bitand (a b : Z) : Z := Z.land (ToInt32 a) (ToInt32 b).
Definition bitor (a b : Z) : Z := Z.lor (ToInt32 a) (ToInt32 b).
Definition shl (a n : Z) : Z := ToInt32 (Z.shiftl (ToInt32 a) (n mod 32)).

(** ** Decimal text of a bigint: [b.toString()] and [BigInt(s)] *)

Definition toString (b : bigint) : string :=
  NilZero.string_of_int (Z.to_int b).

Definition is_white (c : ascii) : bool :=
  let n := nat_of_ascii c in
  ((9 <=? n) && (n <=? 13))%nat || (n =? 32)%nat.

Fixpoint trim_left (cs : list ascii) : list ascii :=
  match cs with
  | c :: r => if is_white c then trim_left r else cs
  | [] => []
  end.

Definition trim (cs : list ascii) : list ascii :=
  List.rev (trim_left (List.rev (trim_left cs))).

(** Value of a digit character in radixes up to 16. *)
Definition digit_value (c : ascii) : option Z :=
  let n := Z.of_nat (nat_of_ascii c) in
  if (48 <=? n) && (n <=? 57) then Some (n - 48)
  else if (97 <=? n) && (n <=? 102) then Some (n - 87)
  else if (65 <=? n) && (n <=? 70) then Some (n - 55)
  else None.

Fixpoint parse_radix (radix : Z) (cs : list ascii) (acc : Z) : option Z :=
  match cs with
  | [] => Some acc
  | c :: r =>
      match digit_value c with
      | Some d => if d <? radix then parse_radix radix r (acc * radix + d)
                  else None
      | None => None
      end
  end.

(** One digit at least. *)
Definition parse_digits (radix : Z) (cs : list ascii) : option Z :=
  match cs with
  | [] => None
  | _ => parse_radix radix cs 0
  end.

(** [BigInt(s)] for a string [s] (StringToBigInt): surrounding white space
    is dropped, the empty text is [0n], a decimal literal may carry a sign,
    and the prefixes [0x], [0o], [0b] select another radix.  [None] stands
    for the [SyntaxError] thrown otherwise.  White space is the ASCII part
    of the language's white space. *)
Definition BigInt_of_string (s : string) : option bigint :=
  match trim (list_ascii_of_string s) with
  | [] => Some 0
  | c :: r =>
      let prefixed :=
        match r with
        | p :: digits =>
            if Ascii.eqb c "0" then
              if Ascii.eqb p "x" || Ascii.eqb p "X" then Some (16, digits)
              else if Ascii.eqb p "o" || Ascii.eqb p "O" then Some (8, digits)
              else if Ascii.eqb p "b" || Ascii.eqb p "B" then Some (2, digits)
              else None
            else None
        | [] => None
        end in
      match prefixed with
      | Some (radix, digits) => parse_digits radix digits
      | None =>
          if Ascii.eqb c "-" then option_map Z.opp (parse_digits 10 r)
          else if Ascii.eqb c "+" then parse_digits 10 r
          else parse_digits 10 (c :: r)
      end
  end.

End JS.

Import JS.

(* ===================================================================== *)
(** * Effects: thrown exceptions, the wall clock, the console *)
(* ===================================================================== *)

(** The exceptions the program can raise.  The three [Error]s the source
    throws are told apart by their message ([message], below); [RangeError] and
    [SyntaxError] are the ones [BigInt(...)] raises. *)
Inductive Exception : Type :=
| InvalidMachineId
| InvalidEpoch
| ClockDriftError (drift : bigint)
| RangeError
| SyntaxError.

(** What [console.warn] is called with: the failure to hash the host name,
    the overflow of the timestamp field within a year (the text is built
    from [timeUntilOverflow]), the clock found [drift] ms behind. *)
Inductive Warning : Type :=
| HostnameWarning
| OverflowWarning (timeUntilOverflow : number)
| DriftWarning (drift : bigint).

(** Result of a function without side effects that may throw. *)
Inductive Completion (A : Type) : Type :=
| Normal (a : A)
| Throw (e : Exception).
Arguments Normal {A} a.
Arguments Throw {A} e.

(** Result of running a command from a store [s]: it returns, it throws, or
    the finite trace of clock readings ends while the command still waits
    for one ([Unfinished]). *)
Inductive Outcome (S A : Type) : Type :=
| Returned (a : A) (s : S)
| Thrown (e : Exception) (s : S)
| Unfinished.
Arguments Returned {S A} a s.
Arguments Thrown {S A} e s.
Arguments Unfinished {S A}.

Definition M (S A : Type) : Type := S -> Outcome S A.

Definition ret {S A} (a : A) : M S A := fun s => Returned a s.
Definition throw {S A} (e : Exception) : M S A := fun s => Thrown e s.
Definition bind {S A B} (c : M S A) (k : A -> M S B) : M S B :=
  fun s =>
    match c s with
    | Returned a s' => k a s'
    | Thrown e s' => Thrown e s'
    | Unfinished => Unfinished
    end.
Definition lift {S A} (c : Completion A) : M S A :=
  match c with
  | Normal a => ret a
  | Throw e => throw e
  end.

Declare Scope monad_scope.
Delimit Scope monad_scope with monad.
Notation "x <- c ;; k" := (bind c (fun x => k))
  (at level 61, c at next level, right associativity) : monad_scope.
Notation "c ;;; k" := (bind c (fun _ => k))
  (at level 61, right associativity) : monad_scope.
Local Open Scope monad_scope.

(** The counters a generator closes over ([createGeneratorState]). *)
Record GeneratorState : Type := mkState {
  sequence : Z;            (* a number; integral, and in [0,4095] once set *)
  lastTimestamp : bigint
}.

(** The mutable world of one generator: the counters its closure captures,
    the readings [Date.now()] will return, in order, and what was sent to
    [console.warn], oldest first. *)
Record Store : Type := mkStore {
  state : GeneratorState;
  clock : list Z;
  console : list Warning
}.

Definition set_state (st : GeneratorState) (s : Store) : Store :=
  mkStore st (clock s) (console s).
Definition set_clock (c : list Z) (s : Store) : Store :=
  mkStore (state s) c (console s).

(** [Date.now()]: the next reading, an integral number of milliseconds. *)
Definition Date_now : M Store Z :=
  fun s =>
    match clock s with
    | t :: rest => Returned t (set_clock rest s)
    | [] => Unfinished
    end.

Definition console_warn (w : Warning) : M Store unit :=
  fun s => Returned tt (mkStore (state s) (clock s) (console s ++ [w])).

(** What the runtime offers besides the clock: the SHA-256 digest of the
    host name ([None] when [os.hostname()] or [crypto] throws) and the draw
    of [Math.random()], the double [random_num / 2^random_exp]. *)
Record Host : Type := mkHost {
  hostname_digest : option (list Byte.byte);
  random_num : Z;
  random_exp : Z
}.

(** [Math.random()] lies in [[0,1)]. *)
Definition random_in_unit_interval (h : Host) : Prop :=
  0 <= random_exp h /\ 0 <= random_num h < 2 ^ random_exp h.

(* ===================================================================== *)
(** * The program *)
(* ===================================================================== *)

Record SnowflakeOptions : Type := mkOptions {
  opt_machineId : option number;
  opt_epoch : option number;
  opt_warnOnDrift : option bool
}.

Record SnowflakeInfo : Type := mkInfo {
  info_id : string;
  info_timestamp : number;
  info_machineId : number;
  info_sequence : number
}.

(** ** Constants *)

Definition MACHINE_ID_BITS : Z := 10.
Definition SEQUENCE_BITS : Z := 12.
Definition MAX_MACHINE_ID : Z := shl 1 MACHINE_ID_BITS - 1.
Definition MAX_SEQUENCE : Z := shl 1 SEQUENCE_BITS - 1.
Definition MACHINE_ID_SHIFT : Z := SEQUENCE_BITS.
Definition TIMESTAMP_SHIFT : Z := SEQUENCE_BITS + MACHINE_ID_BITS.
Definition DEFAULT_EPOCH : Z := 1752383159010.

(** The text of the error; [BigInt]'s own errors have the engine's text. *)
Definition message (e : Exception) : option string :=
  match e with
  | InvalidMachineId =>
      Some ("Machine ID must be an integer between 0 and "
              ++ toString MAX_MACHINE_ID)%string
  | InvalidEpoch => Some "Epoch must be in the past"%string
  | ClockDriftError drift =>
      Some ("Clock moved backwards by " ++ toString drift
              ++ "ms. This may indicate a serious clock synchronization issue.")%string
  | RangeError | SyntaxError => None
  end.

(** [x ?? d] *)
Definition nullish {A} (x : option A) (d : A) : A :=
  match x with
  | Some a => a
  | None => d
  end.

(** ** Helper functions *)

(** [hash[i]] as an operand of [<<] or [|]: a byte, or [undefined], which
    these operators read as [0]. *)
Definition byte_at (hash : list Byte.byte) (i : nat) : Z :=
  match nth_error hash i with
  | Some b => Z.of_N (Byte.to_N b)
  | None => 0
  end.

(** [Math.floor(Math.random() * n)]; the product is exact when [n] is a
    power of two, as it is at the only call. *)
Definition floor_random_times (h : Host) (n : Z) : Z :=
  (random_num h * n) / 2 ^ random_exp h.

Definition generateMachineIdFromHostname (h : Host) : M Store number :=
  match hostname_digest h with
  | Some hash =>
      ret (NInt (bitand (bitor (shl (byte_at hash 0) 8) (byte_at hash 1))
                        MAX_MACHINE_ID))
  | None =>
      console_warn HostnameWarning ;;;
      ret (NInt (floor_random_times h (MAX_MACHINE_ID + 1)))
  end.

Definition validateMachineId (machineId : number) : M Store unit :=
  if negb (Number_isInteger machineId)
     || num_lt machineId (NInt 0)
     || num_gt machineId (NInt MAX_MACHINE_ID)
  then throw InvalidMachineId
  else ret tt.

(** [timeUntilOverflow / (1000 * 60 * 60 * 24 * 365) < 1].  The quotient of
    an integral double by the number of milliseconds in a year is below one
    exactly when the dividend is below the divisor: the largest such
    quotient is [1 - 1/31536000000], far from rounding to one. *)
Definition yearsUntilOverflow_below_1 (timeUntilOverflow : number) : bool :=
  num_lt timeUntilOverflow (NInt (1000 * 60 * 60 * 24 * 365)).

Definition validateEpoch (epoch : number) : M Store unit :=
  now <- Date_now ;;
  if num_ge epoch (NInt now) then throw InvalidEpoch
  else
    let maxTimestamp := Z.shiftl 1 41 - 1 in
    elapsed <- lift (match BigInt_of_number (num_sub (NInt now) epoch) with
                     | Some b => Normal b
                     | None => Throw RangeError
                     end) ;;
    let timeUntilOverflow := Number_of_BigInt (maxTimestamp - elapsed) in
    if yearsUntilOverflow_below_1 timeUntilOverflow
    then console_warn (OverflowWarning timeUntilOverflow)
    else ret tt.

Definition handleClockDrift (currentTimestamp lastTimestamp : bigint)
    (warnOnDrift : bool) : M Store unit :=
  let drift := lastTimestamp - currentTimestamp in
  (if warnOnDrift then console_warn (DriftWarning drift) else ret tt) ;;;
  if 5000 <? drift then throw (ClockDriftError drift) else ret tt.

(** The loop of [waitForNextMillisecond] over the readings to come: the
    first reading above [lastTimestamp] and the readings after it. *)
Fixpoint spin (lastTimestamp : bigint) (readings : list Z)
  : option (bigint * list Z) :=
  match readings with
  | [] => None
  | timestamp :: rest =>
      if timestamp <=? lastTimestamp then spin lastTimestamp rest
      else Some (timestamp, rest)
  end.

Definition waitForNextMillisecond (lastTimestamp : bigint) : M Store bigint :=
  fun s =>
    match spin lastTimestamp (clock s) with
    | Some (timestamp, rest) => Returned timestamp (set_clock rest s)
    | None => Unfinished
    end.

Definition constructSnowflakeId (timestamp epoch : bigint)
    (machineId : number) (sequence : Z) : Completion bigint :=
  match BigInt_of_number machineId with
  | Some m =>
      Normal (Z.lor (Z.lor (Z.shiftl (timestamp - epoch) TIMESTAMP_SHIFT)
                           (Z.shiftl m MACHINE_ID_SHIFT))
                    sequence)
  | None => Throw RangeError
  end.

(** ** Generator state handler *)

Definition createGeneratorState : GeneratorState := mkState 0 (-1).

Definition getSequence : M Store Z :=
  fun s => Returned (sequence (state s)) s.
Definition setSequence (newSequence : Z) : M Store unit :=
  fun s => Returned tt (set_state (mkState newSequence (lastTimestamp (state s))) s).
Definition getLastTimestamp : M Store bigint :=
  fun s => Returned (lastTimestamp (state s)) s.
Definition setLastTimestamp (timestamp : bigint) : M Store unit :=
  fun s => Returned tt (set_state (mkState (sequence (state s)) timestamp) s).
Definition incrementSequence : M Store unit :=
  fun s => Returned tt
    (set_state (mkState (bitand (sequence (state s) + 1) MAX_SEQUENCE)
                        (lastTimestamp (state s))) s).
Definition resetSequence : M Store unit :=
  fun s => Returned tt (set_state (mkState 0 (lastTimestamp (state s))) s).

Record Generated : Type := mkGenerated {
  gen_id : bigint;
  gen_timestamp : bigint;
  gen_sequence : Z
}.

Definition generateSnowflakeWithState (epoch : bigint) (machineId : number)
    (warnOnDrift : bool) : M Store Generated :=
  (* let timestamp = BigInt(Date.now()) *)
  now <- Date_now ;;
  (* if (timestamp < state.getLastTimestamp()) { drift check; wait } *)
  last <- getLastTimestamp ;;
  timestamp <-
    (if now <? last then
       last1 <- getLastTimestamp ;;
       handleClockDrift now last1 warnOnDrift ;;;
       last2 <- getLastTimestamp ;;
       waitForNextMillisecond last2
     else ret now) ;;
  (* if (timestamp === state.getLastTimestamp()) { increment; wait on 0 }
     else { reset } *)
  last3 <- getLastTimestamp ;;
  timestamp <-
    (if timestamp =? last3 then
       incrementSequence ;;;
       seq <- getSequence ;;
       if seq =? 0 then
         last4 <- getLastTimestamp ;;
         waitForNextMillisecond last4
       else ret timestamp
     else
       resetSequence ;;;
       ret timestamp) ;;
  (* state.setLastTimestamp(timestamp); const id = constructSnowflakeId(...) *)
  setLastTimestamp timestamp ;;;
  seq1 <- getSequence ;;
  id <- lift (constructSnowflakeId timestamp epoch machineId seq1) ;;
  (* return { id, timestamp, sequence: state.getSequence() } *)
  seq2 <- getSequence ;;
  ret (mkGenerated id timestamp seq2).

(** ** The exported generator *)

(** What the closure returned by [createSnowflakeGenerator] captures besides
    its counters, which live in the store. *)
Record Generator : Type := mkGenerator {
  machineId : number;
  epoch : bigint;
  warnOnDrift : bool
}.

Definition createSnowflakeGenerator (options : SnowflakeOptions) (h : Host)
  : M Store Generator :=
  (* const machineId = options.machineId ?? generateMachineIdFromHostname() *)
  machineId <- match opt_machineId options with
               | Some m => ret m
               | None => generateMachineIdFromHostname h
               end ;;
  (* const epoch = BigInt(options.epoch ?? DEFAULT_EPOCH) *)
  epoch <- lift (match BigInt_of_number
                         (nullish (opt_epoch options) (NInt DEFAULT_EPOCH)) with
                 | Some b => Normal b
                 | None => Throw RangeError
                 end) ;;
  let warnOnDrift := nullish (opt_warnOnDrift options) true in
  (* if (options.machineId !== undefined) validateMachineId(machineId) *)
  match opt_machineId options with
  | Some _ => validateMachineId machineId
  | None => ret tt
  end ;;;
  validateEpoch (Number_of_BigInt epoch) ;;;
  (* const state = createGeneratorState() *)
  (fun s => Returned tt (set_state createGeneratorState s)) ;;;
  ret (mkGenerator machineId epoch warnOnDrift).

Definition generate (g : Generator) : M Store string :=
  result <- generateSnowflakeWithState (epoch g) (machineId g) (warnOnDrift g) ;;
  ret (toString (gen_id result)).

Definition generateWithInfo (g : Generator) : M Store SnowflakeInfo :=
  result <- generateSnowflakeWithState (epoch g) (machineId g) (warnOnDrift g) ;;
  ret (mkInfo (toString (gen_id result))
              (Number_of_BigInt (gen_timestamp result))
              (machineId g)
              (NInt (gen_sequence result))).

Definition getMachineId (g : Generator) : number := machineId g.
Definition getEpoch (g : Generator) : number := Number_of_BigInt (epoch g).

(** ** The parser *)

(** The [id] argument, [string | bigint]. *)
Inductive IdArg : Type :=
| IdString (s : string)
| IdBigInt (b : bigint).

Definition parseSnowflakeId (id : IdArg) (epoch : option number)
  : Completion SnowflakeInfo :=
  let epoch := nullish epoch (NInt DEFAULT_EPOCH) in
  match (match id with
         | IdString s => BigInt_of_string s
         | IdBigInt b => Some b
         end) with
  | None => Throw SyntaxError
  | Some idBigInt =>
      let sequence := Number_of_BigInt (Z.land idBigInt MAX_SEQUENCE) in
      let machineId :=
        Number_of_BigInt
          (Z.land (Z.shiftr idBigInt MACHINE_ID_SHIFT) MAX_MACHINE_ID) in
      match BigInt_of_number epoch with
      | None => Throw RangeError
      | Some e =>
          let timestamp :=
            Number_of_BigInt (Z.shiftr idBigInt TIMESTAMP_SHIFT + e) in
          Normal (mkInfo (match id with
                          | IdString s => s
                          | IdBigInt b => toString b
                          end)
                         timestamp machineId sequence)
      end
  end.

(** ** The default generator and the convenience function *)

(** The world of the module: the counters of [defaultGenerator], the clock
    and the console.  A generator made inside [generateSnowflakeId] has
    counters of its own, which no one holds once the call is over. *)
Record World : Type := mkWorld {
  default_state : GeneratorState;
  w_clock : list Z;
  w_console : list Warning
}.

(** Run a command on the counters of the default generator. *)
Definition on_default {A} (c : M Store A) : M World A :=
  fun w =>
    match c (mkStore (default_state w) (w_clock w) (w_console w)) with
    | Returned a s => Returned a (mkWorld (state s) (clock s) (console s))
    | Thrown e s => Thrown e (mkWorld (state s) (clock s) (console s))
    | Unfinished => Unfinished
    end.

(** Run a command on counters of its own. *)
Definition on_fresh {A} (c : M Store A) : M World A :=
  fun w =>
    match c (mkStore createGeneratorState (w_clock w) (w_console w)) with
    | Returned a s => Returned a (mkWorld (default_state w) (clock s) (console s))
    | Thrown e s => Thrown e (mkWorld (default_state w) (clock s) (console s))
    | Unfinished => Unfinished
    end.

(** [export const defaultGenerator = createSnowflakeGenerator()] *)
Definition defaultGenerator (h : Host) : M World Generator :=
  on_default (createSnowflakeGenerator (mkOptions None None None) h).

(** [generateSnowflakeId(options?)], with [dg] the value of
    [defaultGenerator]. *)
Definition generateSnowflakeId (dg : Generator)
    (options : option SnowflakeOptions) (h : Host) : M World string :=
  match options with
  | None => on_default (generate dg)
  | Some o =>
      on_fresh (generator <- createSnowflakeGenerator o h ;;
                generate generator)
  end.

(* ===================================================================== *)
(** * Vocabulary of the statements *)
(* ===================================================================== *)

(** The characters [toString] prints. *)
Definition dec_digit (c : ascii) : Prop :=
  In c ["0"; "1"; "2"; "3"; "4"; "5"; "6"; "7"; "8"; "9"]%char.

Definition chars (d : Decimal.uint) : list ascii :=
  list_ascii_of_string (NilEmpty.string_of_uint d).

(** The identifier as a sum of its three fields. *)
Definition packed (t m s : Z) : Z := t * 4194304 + m * 4096 + s.

(** A reading of [Date.now()]: an integral time value. *)
Definition time_value (t : Z) : Prop := Z.abs t <= 8640000000000000.

(** The last step of [generateSnowflakeWithState]: the id is packed from the
    timestamp [t] and the sequence [q] that were just stored. *)
Definition emit (epoch : bigint) (machineId : number) (t q : Z) (s : Store)
  : Outcome Store Generated :=
  match constructSnowflakeId t epoch machineId q with
  | Normal id => Returned (mkGenerated id t q) s
  | Throw e => Thrown e s
  end.

(** What one call does, by cases on the first clock reading; equal to
    [generateSnowflakeWithState] (lemma [generateSnowflakeWithState_cases]). *)
Definition generate_cases (epoch : bigint) (machineId : number)
    (warnOnDrift : bool) (s : Store) : Outcome Store Generated :=
  match clock s with
  | [] => Unfinished
  | now :: rest =>
      let last := lastTimestamp (state s) in
      let seq := sequence (state s) in
      if now <? last then
        let log := if warnOnDrift
                   then console s ++ [DriftWarning (last - now)]
                   else console s in
        if 5000 <? last - now
        then Thrown (ClockDriftError (last - now)) (mkStore (state s) rest log)
        else
          match spin last rest with
          | None => Unfinished
          | Some (t, rest') =>
              emit epoch machineId t 0 (mkStore (mkState 0 t) rest' log)
          end
      else if now =? last then
        let seq' := bitand (seq + 1) MAX_SEQUENCE in
        if seq' =? 0 then
          match spin last rest with
          | None => Unfinished
          | Some (t, rest') =>
              emit epoch machineId t seq'
                   (mkStore (mkState seq' t) rest' (console s))
          end
        else emit epoch machineId now seq'
                  (mkStore (mkState seq' now) rest (console s))
      else emit epoch machineId now 0 (mkStore (mkState 0 now) rest (console s))
  end.

(** An integer in [0,1023]. *)
Definition machineId_in_range (n : number) : Prop :=
  exists m, n = NInt m /\ 0 <= m <= 1023.

(** The [epoch] option is absent or an integer, so that [BigInt(epoch)]
    is defined. *)
Definition epoch_integral (options : SnowflakeOptions) : Prop :=
  match opt_epoch options with
  | None | Some (NInt _) => True
  | Some _ => False
  end.

(** A generator whose machine id is an integer in [0,1023], as every
    generator [createSnowflakeGenerator] returns is. *)
Definition valid_generator (g : Generator) : Prop :=
  machineId_in_range (machineId g).

(** One call of generator [g]: the body shared by [generate] and
    [generateWithInfo]. *)
Definition call (g : Generator) : M Store Generated :=
  generateSnowflakeWithState (epoch g) (machineId g) (warnOnDrift g).

(** [n] calls in a row, and what they return. *)
Fixpoint calls (g : Generator) (n : nat) : M Store (list Generated) :=
  match n with
  | O => ret []
  | S k =>
      r <- call g ;;
      rs <- calls g k ;;
      ret (r :: rs)
  end.

(** The branch a returning call went through. *)
Inductive Branch : Type :=
| WaitedAfterDrift      (* clock behind, by 5000 ms at most: waited *)
| SameMillisecond       (* clock equal: sequence incremented *)
| SequenceExhausted     (* clock equal, sequence wrapped: waited *)
| ClockAdvanced.        (* clock ahead: sequence reset *)

Definition took (b : Branch) (s : Store) (r : Generated) (s' : Store) : Prop :=
  exists now rest,
    clock s = now :: rest /\
    let last := lastTimestamp (state s) in
    let seq := sequence (state s) in
    match b with
    | WaitedAfterDrift =>
        now < last /\ last - now <= 5000 /\
        gen_sequence r = 0 /\
        spin last rest = Some (gen_timestamp r, clock s')
    | SameMillisecond =>
        now = last /\ bitand (seq + 1) MAX_SEQUENCE <> 0 /\
        gen_sequence r = bitand (seq + 1) MAX_SEQUENCE /\
        gen_timestamp r = now /\ clock s' = rest
    | SequenceExhausted =>
        now = last /\ bitand (seq + 1) MAX_SEQUENCE = 0 /\
        gen_sequence r = 0 /\
        spin last rest = Some (gen_timestamp r, clock s')
    | ClockAdvanced =>
        last < now /\ gen_sequence r = 0 /\
        gen_timestamp r = now /\ clock s' = rest
    end.

(** A store, and an outcome, with the console left out. *)
Definition mute (s : Store) : Store := mkStore (state s) (clock s) [].

Definition mute_outcome {A} (o : Outcome Store A) : Outcome Store A :=
  match o with
  | Returned a s => Returned a (mute s)
  | Thrown e s => Thrown e (mute s)
  | Unfinished => Unfinished
  end.

Definition final_console {A} (o : Outcome Store A) : option (list Warning) :=
  match o with
  | Returned _ s | Thrown _ s => Some (console s)
  | Unfinished => None
  end.

(** The machine id [generateMachineIdFromHostname] returns on host [h], and
    what it sends to the console. *)
Definition derived_machineId (h : Host) : number :=
  match hostname_digest h with
  | Some hash =>
      NInt (bitand (bitor (shl (byte_at hash 0) 8) (byte_at hash 1))
                   MAX_MACHINE_ID)
  | None => NInt (floor_random_times h (MAX_MACHINE_ID + 1))
  end.

Definition hostname_log (h : Host) : list Warning :=
  match hostname_digest h with
  | Some _ => []
  | None => [HostnameWarning]
  end.

(** The store once the machine id is known: the console has the host name
    warning when the id had to be derived and hashing failed. *)
Definition store_after_machineId (options : SnowflakeOptions) (h : Host)
    (s : Store) : Store :=
  match opt_machineId options with
  | Some _ => s
  | None => mkStore (state s) (clock s) (console s ++ hostname_log h)
  end.

(** The [machineId] option is absent or an integer in [0,1023]. *)
Definition machineId_option_valid (options : SnowflakeOptions) : Prop :=
  match opt_machineId options with
  | None => True
  | Some mid => machineId_in_range mid
  end.

(** Milliseconds left before [now - epoch] exceeds the 41-bit field, and
    the milliseconds of a year. *)
Definition remaining_ms (epoch now : Z) : Z := 2 ^ 41 - 1 - (now - epoch).
Definition year_ms : Z := 1000 * 60 * 60 * 24 * 365.

(** The console after the epoch check. *)
Definition overflow_log (epoch now : Z) : list Warning :=
  if remaining_ms epoch now <? year_ms
  then [OverflowWarning (NInt (remaining_ms epoch now))]
  else [].

(** ** Sample runs

    A generator with machine id 5 and epoch 0, and stores for the cases of a
    call: a fresh generator at time 1000; the clock 6000 ms behind; the
    sequence exhausted in millisecond 1000. *)

Definition generator5 : Generator := mkGenerator (NInt 5) 0 true.

Definition store_fresh : Store := mkStore createGeneratorState [1000] [].
Definition store_fresh_after : Store := mkStore (mkState 0 1000) [] [].

Definition store_behind : Store := mkStore (mkState 3 10000) [4000; 4001] [].
Definition store_behind_after : Store :=
  mkStore (mkState 3 10000) [4001] [DriftWarning 6000].

Definition store_exhausted : Store :=
  mkStore (mkState 4095 1000) [1000; 1000; 1001; 1001] [].
Definition store_exhausted_after1 : Store := mkStore (mkState 0 1001) [1001] [].
Definition store_exhausted_after2 : Store := mkStore (mkState 1 1001) [] [].

Definition store_exhausted_after1_wait : Store :=
  mkStore (mkState 4095 1000) [1001] [].

(** The clock 3000 ms behind, and behind again after the first call. *)
Definition store_behind_3000 : Store :=
  mkStore (mkState 3 10000) [7000; 9999; 10001; 9000; 10002] [].
Definition store_behind_3000_after : Store :=
  mkStore (mkState 0 10002) [] [DriftWarning 3000; DriftWarning 1001].

(** A construction today with an epoch in 1938, machine id 1. *)
Definition options_1938 : SnowflakeOptions :=
  mkOptions (Some (NInt 1)) (Some (NInt (-1000000000000))) None.
Definition generator_1938 : Generator := mkGenerator (NInt 1) (-1000000000000) true.
Definition host_plain : Host := mkHost None 0 0.
(** Hosts where hashing the host name fails and [Math.random()] draws 1/2
    and 1/4. *)
Definition host_half : Host := mkHost None 1 1.
Definition host_quarter : Host := mkHost None 1 2.
Definition store_today : Store :=
  mkStore createGeneratorState [1762128000000; 1762128000001] [].
Definition store_today_created : Store :=
  mkStore createGeneratorState [1762128000001]
          [OverflowWarning (NInt (-563104744449))].
Definition store_today_after : Store :=
  mkStore (mkState 0 1762128000001) []
          [OverflowWarning (NInt (-563104744449))].

Local Ltac eval_char_code :=
  match goal with
  | |- context [Z.of_nat (nat_of_ascii ?c)] =>
      let v := eval vm_compute in (Z.of_nat (nat_of_ascii c)) in
      change (Z.of_nat (nat_of_ascii c)) with v
  end.

Local Ltac finish_call :=
  cbv [resetSequence incrementSequence setLastTimestamp getSequence
       set_state state sequence lastTimestamp clock console
       lift ret throw bind emit];
  match goal with
  | |- context [constructSnowflakeId ?t ?e ?m ?q] =>
      destruct (constructSnowflakeId t e m q); reflexivity
  end.

(* ===================================================================== *)
(** * Facts about the JavaScript values *)
(* ===================================================================== *)

Section DecimalText.

Lemma chars_digits (d : Decimal.uint) : Forall dec_digit (chars d).
Proof.
  unfold chars.
  induction d; simpl; constructor; trivial; unfold dec_digit; simpl; tauto.
Qed.

Lemma chars_nonempty (d : Decimal.uint) : d <> Decimal.Nil -> chars d <> [].
Proof. unfold chars. destruct d; simpl; congruence. Qed.

Lemma dec_digit_not_white (c : ascii) : dec_digit c -> is_white c = false.
Proof.
  unfold dec_digit; simpl. intros H.
  repeat (destruct H as [<- | H]; [reflexivity | ]). contradiction.
Qed.

Lemma dec_digit_no_prefix (c : ascii) :
  dec_digit c ->
  Ascii.eqb c "x" || Ascii.eqb c "X" = false /\
  Ascii.eqb c "o" || Ascii.eqb c "O" = false /\
  Ascii.eqb c "b" || Ascii.eqb c "B" = false /\
  Ascii.eqb c "-" = false /\ Ascii.eqb c "+" = false.
Proof.
  unfold dec_digit; simpl. intros H.
  repeat (destruct H as [<- | H]; [repeat split; reflexivity | ]).
  contradiction.
Qed.

Lemma trim_left_id (cs : list ascii) :
  Forall (fun c => is_white c = false) cs -> trim_left cs = cs.
Proof. destruct 1 as [ | c r Hc _]; simpl; [ | rewrite Hc ]; reflexivity. Qed.

Lemma trim_id (cs : list ascii) :
  Forall (fun c => is_white c = false) cs -> trim cs = cs.
Proof.
  intros H. unfold trim. rewrite (trim_left_id cs H).
  rewrite trim_left_id.
  - apply rev_involutive.
  - apply Forall_rev, H.
Qed.

Lemma parse_radix_step (c : ascii) (k : Z) (r : list ascii) (acc : Z) :
  digit_value c = Some k -> (k <? 10) = true ->
  parse_radix 10 (c :: r) acc = parse_radix 10 r (acc * 10 + k).
Proof. intros Hc Hk. simpl. now rewrite Hc, Hk. Qed.

(** Reading back the digits of [d] after the digits already read as [acc]. *)
Lemma parse_radix_acc (d : Decimal.uint) (acc : positive) :
  parse_radix 10 (chars d) (Z.pos acc) = Some (Z.pos (Pos.of_uint_acc d acc)).
Proof.
  unfold chars. revert acc.
  induction d; intros acc; simpl NilEmpty.string_of_uint;
    simpl list_ascii_of_string; [reflexivity | ..];
    (eapply eq_trans; [ eapply parse_radix_step; reflexivity | ]);
    cbn [Pos.of_uint_acc]; rewrite <- IHd; f_equal;
    eval_char_code; lia.
Qed.

Lemma parse_radix_uint (d : Decimal.uint) :
  parse_radix 10 (chars d) 0 = Some (Z.of_uint d).
Proof.
  unfold chars, Z.of_uint.
  induction d; simpl NilEmpty.string_of_uint; simpl list_ascii_of_string;
    [reflexivity | ..];
    (eapply eq_trans; [ eapply parse_radix_step; reflexivity | ]);
    eval_char_code; [ exact IHd | .. ];
    cbn [Pos.of_uint Z.of_N]; apply (parse_radix_acc d).
Qed.

Lemma parse_digits_uint (d : Decimal.uint) :
  d <> Decimal.Nil -> parse_digits 10 (chars d) = Some (Z.of_uint d).
Proof.
  intros H. unfold parse_digits.
  destruct (chars d) eqn:E.
  - now apply chars_nonempty in E.
  - rewrite <- E. apply parse_radix_uint.
Qed.

(** [BigInt] reads an unsigned decimal text back. *)
Lemma BigInt_of_chars (d : Decimal.uint) :
  d <> Decimal.Nil ->
  BigInt_of_string (NilEmpty.string_of_uint d) = Some (Z.of_uint d).
Proof.
  intros Hd. unfold BigInt_of_string. fold (chars d).
  rewrite trim_id
    by (eapply Forall_impl; [ apply dec_digit_not_white | apply chars_digits ]).
  pose proof (chars_digits d) as Hall.
  pose proof (parse_digits_uint d Hd) as Hparse.
  destruct (chars d) as [ | c r ] eqn:E; [ now apply chars_nonempty in E | ].
  inversion Hall as [ | ? ? Hc Hr ]; subst.
  destruct (dec_digit_no_prefix c Hc) as (_ & _ & _ & Hminus & Hplus).
  rewrite Hminus, Hplus.
  destruct r as [ | p digits ]; [ exact Hparse | ].
  inversion Hr as [ | ? ? Hp _ ]; subst.
  destruct (dec_digit_no_prefix p Hp) as (Hx & Ho & Hb & _ & _).
  rewrite Hx, Ho, Hb.
  destruct (Ascii.eqb c "0"); exact Hparse.
Qed.

Lemma string_of_uint_nonnil (d : Decimal.uint) :
  d <> Decimal.Nil -> NilZero.string_of_uint d = NilEmpty.string_of_uint d.
Proof. unfold NilZero.string_of_uint. destruct d; congruence. Qed.

(** [BigInt(b.toString()) = b]. *)
Lemma BigInt_of_toString (b : bigint) : BigInt_of_string (toString b) = Some b.
Proof.
  unfold toString.
  rewrite <- (DecimalZ.of_to b) at 2.
  destruct b as [ | p | p ]; [ reflexivity | | ]; simpl Z.to_int;
    pose proof (DecimalPos.Unsigned.to_uint_nonnil p) as Hn;
    simpl NilZero.string_of_int; rewrite (string_of_uint_nonnil _ Hn).
  - now apply BigInt_of_chars.
  - simpl Z.of_int. unfold BigInt_of_string.
    cbn [list_ascii_of_string]. fold (chars (Pos.to_uint p)).
    rewrite trim_id.
    2:{ constructor; [ reflexivity | ].
        eapply Forall_impl; [ apply dec_digit_not_white | apply chars_digits ]. }
    rewrite parse_digits_uint by exact Hn.
    destruct (chars (Pos.to_uint p)) as [ | c r ] eqn:E;
      [ now apply chars_nonempty in E | ].
    reflexivity.
Qed.

End DecimalText.

Section Numbers.

Lemma MAX_MACHINE_ID_value : MAX_MACHINE_ID = 1023.
Proof. reflexivity. Qed.

Lemma MAX_SEQUENCE_value : MAX_SEQUENCE = 4095.
Proof. reflexivity. Qed.

Lemma bit_length_bound (z : Z) (n : Z) :
  0 <= n -> Z.abs z < 2 ^ n -> bit_length z <= n.
Proof.
  intros Hn Hz. unfold bit_length.
  destruct (Z.eqb_spec z 0) as [ | Hnz ]; [ lia | ].
  assert (Z.log2 (Z.abs z) < n) by (apply Z.log2_lt_pow2; lia).
  lia.
Qed.

(** Integers below [2^53] in magnitude are doubles: [Number] is exact. *)
Lemma round53_exact (z : Z) : Z.abs z < 2 ^ 53 -> round53 z = z.
Proof.
  intros Hz. unfold round53.
  pose proof (bit_length_bound z 53 ltac:(lia) Hz) as Hb.
  destruct (Z.leb_spec (bit_length z) 53); [ reflexivity | lia ].
Qed.

Lemma Number_of_BigInt_exact (z : Z) :
  Z.abs z < 2 ^ 53 -> Number_of_BigInt z = NInt z.
Proof.
  intros Hz. unfold Number_of_BigInt. rewrite (round53_exact z Hz).
  assert (H : 2 ^ 53 < 2 ^ 1024) by (apply Z.pow_lt_mono_r; lia).
  destruct (Z.ltb_spec (Z.abs z) (2 ^ 1024)); [ reflexivity | lia ].
Qed.

(** The operator [&] with the mask [4095] keeps the low twelve bits. *)
Lemma bitand_MAX_SEQUENCE (a : Z) : bitand a MAX_SEQUENCE = a mod 4096.
Proof.
  rewrite MAX_SEQUENCE_value. unfold bitand.
  change (ToInt32 4095) with (Z.ones 12).
  rewrite Z.land_ones by lia. unfold ToInt32.
  change (2 ^ 12) with 4096. change (2 ^ 31) with 2147483648.
  change (2 ^ 32) with 4294967296.
  Z.div_mod_to_equations. lia.
Qed.

Lemma bitand_MAX_MACHINE_ID (a : Z) : bitand a MAX_MACHINE_ID = a mod 1024.
Proof.
  rewrite MAX_MACHINE_ID_value. unfold bitand.
  change (ToInt32 1023) with (Z.ones 10).
  rewrite Z.land_ones by lia. unfold ToInt32.
  change (2 ^ 10) with 1024. change (2 ^ 31) with 2147483648.
  change (2 ^ 32) with 4294967296.
  Z.div_mod_to_equations. lia.
Qed.

End Numbers.

Section BitFields.

(** Or-ing a value below [2^n] into a value shifted left by [n] adds it. *)
Lemma lor_shiftl_low (hi lo n : Z) :
  0 <= n -> 0 <= lo < 2 ^ n -> Z.lor (Z.shiftl hi n) lo = hi * 2 ^ n + lo.
Proof.
  intros Hn Hlo.
  assert (Hdisj : Z.land (Z.shiftl hi n) lo = 0).
  { apply Z.bits_inj'. intros i Hi.
    rewrite Z.land_spec, Z.bits_0.
    destruct (Z.ltb_spec i n) as [ Hlt | Hge ].
    - rewrite Z.shiftl_spec_low by lia. reflexivity.
    - destruct (Z.eqb_spec lo 0) as [ -> | Hnz ].
      + rewrite Z.bits_0. apply andb_false_r.
      + rewrite (Z.bits_above_log2 lo i); [ apply andb_false_r | lia | ].
        assert (Z.log2 lo < n) by (apply Z.log2_lt_pow2; lia). lia. }
  rewrite <- Z.lxor_lor by exact Hdisj.
  rewrite <- Z.add_nocarry_lxor by exact Hdisj.
  rewrite Z.shiftl_mul_pow2 by lia. reflexivity.
Qed.

Lemma pack_fields (t m s : Z) :
  0 <= m <= 1023 -> 0 <= s <= 4095 ->
  Z.lor (Z.lor (Z.shiftl t TIMESTAMP_SHIFT) (Z.shiftl m MACHINE_ID_SHIFT)) s
  = packed t m s.
Proof.
  intros Hm Hs. unfold packed.
  change TIMESTAMP_SHIFT with 22. change MACHINE_ID_SHIFT with 12.
  rewrite (Z.shiftl_mul_pow2 m 12) by lia.
  rewrite (lor_shiftl_low t (m * 2 ^ 12) 22) by (change (2 ^ 12) with 4096;
    change (2 ^ 22) with 4194304; lia).
  change (2 ^ 22) with 4194304. change (2 ^ 12) with 4096.
  replace (t * 4194304 + m * 4096) with (Z.shiftl (t * 1024 + m) 12)
    by (rewrite Z.shiftl_mul_pow2 by lia; change (2 ^ 12) with 4096; lia).
  rewrite lor_shiftl_low by (change (2 ^ 12) with 4096; lia).
  now rewrite Z.shiftl_mul_pow2 by lia.
Qed.

Lemma unpack_sequence (t m s : Z) :
  0 <= m <= 1023 -> 0 <= s <= 4095 ->
  Z.land (packed t m s) MAX_SEQUENCE = s.
Proof.
  intros Hm Hs. rewrite MAX_SEQUENCE_value. change 4095 with (Z.ones 12).
  rewrite Z.land_ones by lia. unfold packed. change (2 ^ 12) with 4096.
  Z.div_mod_to_equations. lia.
Qed.

Lemma unpack_machineId (t m s : Z) :
  0 <= m <= 1023 -> 0 <= s <= 4095 ->
  Z.land (Z.shiftr (packed t m s) MACHINE_ID_SHIFT) MAX_MACHINE_ID = m.
Proof.
  intros Hm Hs. rewrite MAX_MACHINE_ID_value. change 1023 with (Z.ones 10).
  rewrite Z.land_ones by lia. change MACHINE_ID_SHIFT with 12.
  rewrite Z.shiftr_div_pow2 by lia. unfold packed.
  change (2 ^ 12) with 4096. change (2 ^ 10) with 1024.
  Z.div_mod_to_equations. lia.
Qed.

Lemma unpack_timestamp (t m s : Z) :
  0 <= m <= 1023 -> 0 <= s <= 4095 ->
  Z.shiftr (packed t m s) TIMESTAMP_SHIFT = t.
Proof.
  intros Hm Hs. change TIMESTAMP_SHIFT with 22.
  rewrite Z.shiftr_div_pow2 by lia. unfold packed.
  change (2 ^ 22) with 4194304.
  Z.div_mod_to_equations. lia.
Qed.

Lemma constructSnowflakeId_packed (timestamp epoch m s : Z) :
  0 <= m <= 1023 -> 0 <= s <= 4095 ->
  constructSnowflakeId timestamp epoch (NInt m) s
  = Normal (packed (timestamp - epoch) m s).
Proof.
  intros Hm Hs. unfold constructSnowflakeId. cbn [BigInt_of_number].
  now rewrite pack_fields.
Qed.

End BitFields.

Lemma time_value_is_double (t : Z) : time_value t -> is_double (NInt t).
Proof.
  unfold time_value. intros Ht.
  assert (H53 : Z.abs t < 2 ^ 53) by (change (2 ^ 53) with 9007199254740992; lia).
  split; [ now apply round53_exact | ].
  assert (H : 2 ^ 53 < 2 ^ 1024) by (apply Z.pow_lt_mono_r; lia). lia.
Qed.

Lemma Number_of_BigInt_double (z : Z) :
  is_double (NInt z) -> Number_of_BigInt z = NInt z.
Proof.
  intros [Hr Hb]. unfold Number_of_BigInt. rewrite Hr.
  destruct (Z.ltb_spec (Z.abs z) (2 ^ 1024)); [ reflexivity | lia ].
Qed.

(* ===================================================================== *)
(** * Packing and parsing *)
(* ===================================================================== *)

Lemma parseSnowflakeId_packed (arg : IdArg) (text : string) (t m s e : Z) :
  0 <= m <= 1023 -> 0 <= s <= 4095 ->
  match arg with
  | IdBigInt b => b = packed t m s /\ text = toString b
  | IdString str => BigInt_of_string str = Some (packed t m s) /\ text = str
  end ->
  parseSnowflakeId arg (Some (NInt e))
  = Normal (mkInfo text (Number_of_BigInt (t + e)) (NInt m) (NInt s)).
Proof.
  intros Hm Hs Harg. unfold parseSnowflakeId. cbn [nullish BigInt_of_number].
  assert (Hseq : Number_of_BigInt (Z.land (packed t m s) MAX_SEQUENCE) = NInt s).
  { rewrite unpack_sequence by assumption.
    apply Number_of_BigInt_exact. change (2 ^ 53) with 9007199254740992. lia. }
  assert (Hmid : Number_of_BigInt
            (Z.land (Z.shiftr (packed t m s) MACHINE_ID_SHIFT) MAX_MACHINE_ID)
          = NInt m).
  { rewrite unpack_machineId by assumption.
    apply Number_of_BigInt_exact. change (2 ^ 53) with 9007199254740992. lia. }
  destruct arg as [ str | b ]; destruct Harg as [Hb ->].
  - rewrite Hb, Hseq, Hmid, unpack_timestamp by assumption. reflexivity.
  - subst b. rewrite Hseq, Hmid, unpack_timestamp by assumption. reflexivity.
Qed.

(** C1.  Round trip: for a machine id in [0,1023], a sequence in [0,4095]
    and a generation timestamp [now] (the BigInt of a number, as every
    reading of [Date.now()] is) with [0 <= now - epoch < 2^41],
    [constructSnowflakeId] returns an id, a non-negative integer below
    [2^63], and [parseSnowflakeId] applied to that id, as a bigint or as the
    decimal string [generate] hands out, with the same epoch returns exactly
    [{timestamp: now, machineId, sequence}]. *)
Theorem parse_construct_roundtrip (now epoch m s : Z) :
  is_double (NInt now) ->
  0 <= m <= 1023 -> 0 <= s <= 4095 -> 0 <= now - epoch < 2 ^ 41 ->
  exists id : bigint,
    constructSnowflakeId now epoch (NInt m) s = Normal id /\
    0 <= id < 2 ^ 63 /\
    parseSnowflakeId (IdBigInt id) (Some (NInt epoch))
    = Normal (mkInfo (toString id) (NInt now) (NInt m) (NInt s)) /\
    parseSnowflakeId (IdString (toString id)) (Some (NInt epoch))
    = Normal (mkInfo (toString id) (NInt now) (NInt m) (NInt s)).
Proof.
  intros Hnow Hm Hs Hfield.
  exists (packed (now - epoch) m s).
  split; [ now apply constructSnowflakeId_packed | ].
  split.
  { unfold packed. change (2 ^ 41) with 2199023255552 in Hfield.
    change (2 ^ 63) with 9223372036854775808. lia. }
  assert (Hparse : forall arg text,
            match arg with
            | IdBigInt b => b = packed (now - epoch) m s /\ text = toString b
            | IdString str =>
                BigInt_of_string str = Some (packed (now - epoch) m s) /\
                text = str
            end ->
            parseSnowflakeId arg (Some (NInt epoch))
            = Normal (mkInfo text (NInt now) (NInt m) (NInt s))).
  { intros arg text Harg.
    rewrite (parseSnowflakeId_packed arg text (now - epoch) m s epoch Hm Hs Harg).
    replace (now - epoch + epoch) with now by lia.
    now rewrite Number_of_BigInt_double. }
  split; apply Hparse; split; trivial using BigInt_of_toString.
Qed.

Lemma parse_construct_roundtrip_witness :
  (is_double (NInt 1762128000000) /\ 0 <= 5 <= 1023 /\ 0 <= 7 <= 4095 /\
   0 <= 1762128000000 - DEFAULT_EPOCH < 2 ^ 41) /\
  exists id : bigint,
    constructSnowflakeId 1762128000000 DEFAULT_EPOCH (NInt 5) 7 = Normal id /\
    0 <= id < 2 ^ 63 /\
    parseSnowflakeId (IdBigInt id) (Some (NInt DEFAULT_EPOCH))
    = Normal (mkInfo (toString id) (NInt 1762128000000) (NInt 5) (NInt 7)) /\
    parseSnowflakeId (IdString (toString id)) (Some (NInt DEFAULT_EPOCH))
    = Normal (mkInfo (toString id) (NInt 1762128000000) (NInt 5) (NInt 7)).
Proof.
  assert (Hd : is_double (NInt 1762128000000)).
  { split; [ reflexivity | ].
    apply Z.lt_le_trans with (2 ^ 53); [ reflexivity | ].
    apply Z.pow_le_mono_r; lia. }
  assert (Ht : 0 <= 1762128000000 - DEFAULT_EPOCH < 2 ^ 41).
  { unfold DEFAULT_EPOCH. change (2 ^ 41) with 2199023255552. lia. }
  split.
  - repeat split; try lia; try apply Hd; apply Ht.
  - apply (parse_construct_roundtrip 1762128000000 DEFAULT_EPOCH 5 7);
      [ exact Hd | lia | lia | exact Ht ].
Defined.

(** The fields [parseSnowflakeId] returns, for every integer id and every
    integral epoch. *)
Lemma parseSnowflakeId_arbitrary (id e : Z) :
  parseSnowflakeId (IdBigInt id) (Some (NInt e))
  = Normal (mkInfo (toString id)
                   (Number_of_BigInt (Z.shiftr id 22 + e))
                   (NInt (Z.land (Z.shiftr id 12) 1023))
                   (NInt (Z.land id 4095))).
Proof.
  unfold parseSnowflakeId. cbn [nullish BigInt_of_number].
  rewrite MAX_SEQUENCE_value, MAX_MACHINE_ID_value.
  change MACHINE_ID_SHIFT with 12. change TIMESTAMP_SHIFT with 22.
  assert (Hs : 0 <= Z.land id 4095 < 4096).
  { change 4095 with (Z.ones 12). rewrite Z.land_ones by lia.
    apply Z.mod_pos_bound. reflexivity. }
  assert (Hm : 0 <= Z.land (Z.shiftr id 12) 1023 < 1024).
  { change 1023 with (Z.ones 10). rewrite Z.land_ones by lia.
    apply Z.mod_pos_bound. reflexivity. }
  rewrite (Number_of_BigInt_exact (Z.land id 4095))
    by (change (2 ^ 53) with 9007199254740992; lia).
  rewrite (Number_of_BigInt_exact (Z.land (Z.shiftr id 12) 1023))
    by (change (2 ^ 53) with 9007199254740992; lia).
  reflexivity.
Qed.

(** The timestamp is a [number]: beyond [2^53] it is the double nearest to
    the integer sum, as for the epoch [-9007199254740994] and the id
    [4194304 = 1 << 22], whose sum [-9007199254740993] is not a double. *)
Example parse_timestamp_nearest_double :
  is_double (NInt (-9007199254740994)) /\
  exists info,
    parseSnowflakeId (IdBigInt 4194304) (Some (NInt (-9007199254740994)))
    = Normal info /\
    info_timestamp info = NInt (-9007199254740992).
Proof.
  split.
  - split; [ reflexivity | ].
    apply Z.lt_le_trans with (2 ^ 54); [ reflexivity | ].
    apply Z.pow_le_mono_r; lia.
  - eexists. split; [ apply parseSnowflakeId_arbitrary | reflexivity ].
Qed.

(** C5.  For every integer id, given as a bigint or as its decimal string,
    and every integral epoch, [parseSnowflakeId] returns, with no validation
    and no error, [{sequence: id & 0xFFF, machineId: (id >> 12) & 0x3FF,
    timestamp: (id >> 22) + epoch}], the timestamp being the number
    [Number((id >> 22) + epoch)]: the sum itself whenever it is below [2^53]
    in magnitude, as it is for every 64-bit id and every epoch that is a
    time value.  The machine id is in [0,1023] and the sequence in [0,4095].
    An omitted epoch is [DEFAULT_EPOCH].
    In particular [parseSnowflakeId("4194324480", 0)] is
    [{timestamp: 1000, machineId: 5, sequence: 0}]. *)
Theorem parseSnowflakeId_fields (id e : Z) :
  let fields :=
    mkInfo (toString id)
           (Number_of_BigInt (Z.shiftr id 22 + e))
           (NInt (Z.land (Z.shiftr id 12) 1023))
           (NInt (Z.land id 4095)) in
  parseSnowflakeId (IdBigInt id) (Some (NInt e)) = Normal fields /\
  parseSnowflakeId (IdString (toString id)) (Some (NInt e)) = Normal fields /\
  0 <= Z.land (Z.shiftr id 12) 1023 <= 1023 /\
  0 <= Z.land id 4095 <= 4095 /\
  (Z.abs (Z.shiftr id 22 + e) < 2 ^ 53 ->
   info_timestamp fields = NInt (Z.shiftr id 22 + e)) /\
  (- 2 ^ 63 <= id < 2 ^ 64 -> time_value e ->
   info_timestamp fields = NInt (Z.shiftr id 22 + e)) /\
  parseSnowflakeId (IdBigInt id) None
  = parseSnowflakeId (IdBigInt id) (Some (NInt DEFAULT_EPOCH)) /\
  parseSnowflakeId (IdString "4194324480") (Some (NInt 0))
  = Normal (mkInfo "4194324480" (NInt 1000) (NInt 5) (NInt 0)).
Proof.
  intros fields.
  assert (Hs : 0 <= Z.land id 4095 < 4096).
  { change 4095 with (Z.ones 12). rewrite Z.land_ones by lia.
    apply Z.mod_pos_bound. reflexivity. }
  assert (Hm : 0 <= Z.land (Z.shiftr id 12) 1023 < 1024).
  { change 1023 with (Z.ones 10). rewrite Z.land_ones by lia.
    apply Z.mod_pos_bound. reflexivity. }
  split; [ apply parseSnowflakeId_arbitrary | ].
  split.
  { pose proof (parseSnowflakeId_arbitrary id e) as H.
    unfold parseSnowflakeId in *. rewrite BigInt_of_toString. exact H. }
  split; [ lia | ]. split; [ lia | ].
  split; [ intros Hsum; apply Number_of_BigInt_exact, Hsum | ].
  split; [ | split; reflexivity ].
  intros Hid He. apply Number_of_BigInt_exact.
  unfold time_value in He. rewrite Z.shiftr_div_pow2 by lia.
  change (2 ^ 22) with 4194304. change (2 ^ 53) with 9007199254740992.
  change (2 ^ 63) with 9223372036854775808 in Hid.
  change (2 ^ 64) with 18446744073709551616 in Hid.
  Z.div_mod_to_equations. lia.
Qed.

Lemma parseSnowflakeId_fields_witness :
  (Z.abs (Z.shiftr 4194324480 22 + 0) < 2 ^ 53 /\
   - 2 ^ 63 <= 4194324480 < 2 ^ 64 /\ time_value 0) /\
  info_timestamp
    (mkInfo (toString 4194324480)
            (Number_of_BigInt (Z.shiftr 4194324480 22 + 0))
            (NInt (Z.land (Z.shiftr 4194324480 12) 1023))
            (NInt (Z.land 4194324480 4095)))
  = NInt (Z.shiftr 4194324480 22 + 0).
Proof.
  assert (H1 : Z.abs (Z.shiftr 4194324480 22 + 0) < 2 ^ 53) by reflexivity.
  assert (H2 : - 2 ^ 63 <= 4194324480 < 2 ^ 64)
    by (split; [ discriminate | reflexivity ]).
  assert (H3 : time_value 0) by (unfold time_value; simpl; lia).
  split; [ repeat split; assumption | ].
  destruct (parseSnowflakeId_fields 4194324480 0)
    as (_ & _ & _ & _ & _ & Hexact & _).
  exact (Hexact H2 H3).
Defined.

(* ===================================================================== *)
(** * One call of the generator *)
(* ===================================================================== *)

Section Spin.

Lemma spin_above (last : Z) (l : list Z) (t : Z) (rest : list Z) :
  spin last l = Some (t, rest) -> last < t.
Proof.
  induction l as [ | x l IH ]; simpl; [ discriminate | ].
  destruct (Z.leb_spec x last); [ exact IH | ].
  intros [= <- <-]. assumption.
Qed.

(** The readings skipped while waiting, and what is left. *)
Lemma spin_split (last : Z) (l : list Z) (t : Z) (rest : list Z) :
  spin last l = Some (t, rest) ->
  exists skipped, l = skipped ++ t :: rest /\ Forall (fun x => x <= last) skipped.
Proof.
  induction l as [ | x l IH ]; simpl; [ discriminate | ].
  destruct (Z.leb_spec x last) as [ Hle | Hgt ].
  - intros H. destruct (IH H) as (skipped & -> & Hall).
    exists (x :: skipped). split; [ reflexivity | now constructor ].
  - intros [= <- <-]. exists []. split; [ reflexivity | constructor ].
Qed.

(** The wait ends as soon as the clock shows a later millisecond. *)
Lemma spin_terminates (last : Z) (l : list Z) :
  Exists (fun x => last < x) l ->
  exists t rest, spin last l = Some (t, rest).
Proof.
  induction 1 as [ x l Hx | x l _ IH ]; simpl.
  - destruct (Z.leb_spec x last); [ lia | eauto ].
  - destruct (Z.leb_spec x last); [ exact IH | eauto ].
Qed.

Lemma spin_none (last : Z) (l : list Z) :
  spin last l = None -> Forall (fun x => x <= last) l.
Proof.
  induction l as [ | x l IH ]; simpl; [ constructor | ].
  destruct (Z.leb_spec x last) as [ Hle | Hgt ]; [ | discriminate ].
  intros Hnone. constructor; auto.
Qed.

(** The loop in terms of the readings alone: it passes over readings that
    are not above [last] and stops at the first that is. *)
Lemma spin_first_later (last : Z) (skipped : list Z) (t : Z) (rest : list Z) :
  Forall (fun x => x <= last) skipped -> last < t ->
  spin last (skipped ++ t :: rest) = Some (t, rest).
Proof.
  intros Hall Ht. induction Hall as [ | x l Hx _ IH ]; simpl.
  - destruct (Z.leb_spec t last); [ lia | reflexivity ].
  - destruct (Z.leb_spec x last); [ exact IH | lia ].
Qed.

Lemma spin_all_behind (last : Z) (l : list Z) :
  Forall (fun x => x <= last) l -> spin last l = None.
Proof.
  induction 1 as [ | x l Hx _ IH ]; simpl; [ reflexivity | ].
  destruct (Z.leb_spec x last); [ exact IH | lia ].
Qed.

(** Readings of which one is above [last] split at the first such one. *)
Lemma first_later_reading (last : Z) (l : list Z) :
  Exists (fun x => last < x) l ->
  exists skipped t rest,
    l = skipped ++ t :: rest /\ Forall (fun x => x <= last) skipped /\ last < t.
Proof.
  induction 1 as [ x l Hx | x l _ IH ].
  - exists [], x, l. repeat split; trivial.
  - destruct (Z_le_gt_dec x last) as [ Hle | Hgt ].
    + destruct IH as (skipped & t & rest & -> & Hall & Ht).
      exists (x :: skipped), t, rest. repeat split; trivial. now constructor.
    + exists [], x, l. repeat split; trivial. lia.
Qed.

Lemma StronglySorted_suffix (l1 l2 : list Z) :
  StronglySorted Z.le (l1 ++ l2) -> StronglySorted Z.le l2.
Proof.
  induction l1 as [ | x l1 IH ]; simpl; [ trivial | ].
  intros Hs. apply IH. apply (StronglySorted_inv Hs).
Qed.

Lemma spin_sorted (last : Z) (l : list Z) (t : Z) (rest : list Z) :
  StronglySorted Z.le l -> spin last l = Some (t, rest) ->
  StronglySorted Z.le (t :: rest).
Proof.
  intros Hs Hspin. destruct (spin_split _ _ _ _ Hspin) as (skipped & -> & _).
  now apply StronglySorted_suffix in Hs.
Qed.

End Spin.

Lemma generateSnowflakeWithState_cases (epoch : bigint) (machineId : number)
    (warnOnDrift : bool) (s : Store) :
  generateSnowflakeWithState epoch machineId warnOnDrift s
  = generate_cases epoch machineId warnOnDrift s.
Proof.
  unfold generateSnowflakeWithState, generate_cases.
  destruct s as [[seq last] clk log].
  cbv [bind Date_now getLastTimestamp clock state lastTimestamp sequence
       set_clock console].
  destruct clk as [ | now rest ]; [ reflexivity | ].
  destruct (Z.ltb_spec now last) as [ Hlt | Hge ].
  - cbv [handleClockDrift bind console_warn ret throw state clock console].
    destruct warnOnDrift; destruct (5000 <? last - now); try reflexivity;
      cbv [waitForNextMillisecond clock set_clock state console lastTimestamp];
      destruct (spin last rest) as [ [t rest'] | ] eqn:Hspin; try reflexivity;
      pose proof (spin_above _ _ _ _ Hspin) as Habove;
      (destruct (Z.eqb_spec t last); [ lia | ]); finish_call.
  - cbv [ret].
    destruct (Z.eqb_spec now last) as [ -> | Hne ].
    + cbv [incrementSequence getSequence set_state state sequence
           lastTimestamp clock console].
      destruct (bitand (seq + 1) MAX_SEQUENCE =? 0) eqn:Hwrap.
      * cbv [waitForNextMillisecond clock set_clock state console lastTimestamp].
        destruct (spin last rest) as [ [t rest'] | ]; [ | reflexivity ].
        finish_call.
      * finish_call.
    + finish_call.
Qed.

Lemma emit_returned (epoch : bigint) (mid : number) (t q : Z) (s : Store)
    (r : Generated) (s' : Store) :
  emit epoch mid t q s = Returned r s' ->
  s' = s /\ gen_timestamp r = t /\ gen_sequence r = q /\
  constructSnowflakeId t epoch mid q = Normal (gen_id r).
Proof.
  unfold emit. destruct (constructSnowflakeId t epoch mid q); [ | discriminate ].
  intros [= <- <-]. auto.
Qed.

Lemma emit_thrown (epoch : bigint) (mid : number) (t q : Z) (s : Store)
    (e : Exception) (s' : Store) :
  emit epoch mid t q s = Thrown e s' -> e = RangeError.
Proof.
  unfold emit, constructSnowflakeId.
  destruct (BigInt_of_number mid); [ discriminate | ].
  now intros [= <- _].
Qed.

Lemma emit_integral (epoch : bigint) (m t q : Z) (s : Store) :
  exists id, emit epoch (NInt m) t q s = Returned (mkGenerated id t q) s.
Proof. unfold emit, constructSnowflakeId. simpl. eauto. Qed.

(** What holds after a call that returned. *)
Lemma call_returned (g : Generator) (s : Store) (r : Generated) (s' : Store) :
  call g s = Returned r s' ->
  state s' = mkState (gen_sequence r) (gen_timestamp r) /\
  constructSnowflakeId (gen_timestamp r) (epoch g) (machineId g) (gen_sequence r)
  = Normal (gen_id r) /\
  exists b, took b s r s'.
Proof.
  unfold call. rewrite generateSnowflakeWithState_cases. unfold generate_cases.
  destruct (clock s) as [ | now rest ] eqn:Hclock; [ discriminate | ].
  cbv zeta.
  destruct (Z.ltb_spec now (lastTimestamp (state s))) as [ Hlt | Hge ].
  - destruct (Z.ltb_spec 5000 (lastTimestamp (state s) - now)) as [ Hbig | Hsmall ];
      [ discriminate | ].
    destruct (spin _ rest) as [ [t rest'] | ] eqn:Hspin; [ | discriminate ].
    intros Hemit. apply emit_returned in Hemit. destruct Hemit as (-> & Ht & Hq & Hid).
    rewrite Ht, Hq. repeat split; trivial.
    exists WaitedAfterDrift, now, rest. simpl. rewrite Ht. auto.
  - destruct (Z.eqb_spec now (lastTimestamp (state s))) as [ Heq | Hne ].
    + destruct (Z.eqb_spec (bitand (sequence (state s) + 1) MAX_SEQUENCE) 0)
        as [ Hwrap | Hnowrap ].
      * destruct (spin _ rest) as [ [t rest'] | ] eqn:Hspin; [ | discriminate ].
        intros Hemit. apply emit_returned in Hemit. destruct Hemit as (-> & Ht & Hq & Hid).
        rewrite Ht, Hq. repeat split; trivial.
        exists SequenceExhausted, now, rest. simpl. rewrite Ht.
        repeat split; trivial. congruence.
      * intros Hemit. apply emit_returned in Hemit. destruct Hemit as (-> & Ht & Hq & Hid).
        rewrite Ht, Hq. repeat split; trivial.
        exists SameMillisecond, now, rest. simpl.
        repeat split; trivial; congruence.
    + intros Hemit. apply emit_returned in Hemit. destruct Hemit as (-> & Ht & Hq & Hid).
      rewrite Ht, Hq. repeat split; trivial.
      exists ClockAdvanced, now, rest. simpl. repeat split; trivial. lia.
Qed.

(** A call throws the drift error in one case only. *)
Lemma call_thrown (g : Generator) (s : Store) (e : Exception) (s' : Store) :
  call g s = Thrown e s' ->
  e = RangeError \/
  exists now rest,
    clock s = now :: rest /\
    now < lastTimestamp (state s) /\
    5000 < lastTimestamp (state s) - now /\
    e = ClockDriftError (lastTimestamp (state s) - now) /\
    s' = mkStore (state s) rest
           (if warnOnDrift g
            then console s ++ [DriftWarning (lastTimestamp (state s) - now)]
            else console s).
Proof.
  unfold call. rewrite generateSnowflakeWithState_cases. unfold generate_cases.
  destruct (clock s) as [ | now rest ] eqn:Hclock; [ discriminate | ].
  cbv zeta.
  destruct (Z.ltb_spec now (lastTimestamp (state s))) as [ Hlt | Hge ].
  - destruct (Z.ltb_spec 5000 (lastTimestamp (state s) - now)) as [ Hbig | Hsmall ].
    + intros [= <- <-]. right. exists now, rest. auto.
    + destruct (spin _ rest) as [ [t rest'] | ]; [ | discriminate ].
      intros Hemit. left. eapply emit_thrown, Hemit.
  - destruct (now =? lastTimestamp (state s)).
    + destruct (_ =? 0).
      * destruct (spin _ rest) as [ [t rest'] | ]; [ | discriminate ].
        intros Hemit. left. eapply emit_thrown, Hemit.
      * intros Hemit. left. eapply emit_thrown, Hemit.
    + intros Hemit. left. eapply emit_thrown, Hemit.
Qed.

(** The worked example of the specification: epoch 0, machine id 5, first
    call at 1000 ms. *)
Example first_id :
  generateWithInfo generator5 store_fresh
  = Returned (mkInfo "4194324480" (NInt 1000) (NInt 5) (NInt 0))
             store_fresh_after.
Proof. reflexivity. Qed.

(** A clock 3000 ms behind: the call warns, waits for the first reading
    above [lastTimestamp = 10000] and uses it. *)
Example drift_3000 :
  generateWithInfo generator5
    (mkStore (mkState 3 10000) [7000; 9999; 10000; 10001; 10002] [])
  = Returned (mkInfo "41947254784" (NInt 10001) (NInt 5) (NInt 0))
             (mkStore (mkState 0 10001) [10002] [DriftWarning 3000]).
Proof. reflexivity. Qed.

(** The clock never passes [lastTimestamp]: the call is still waiting when
    the readings end. *)
Example drift_unfinished :
  generate generator5 (mkStore (mkState 3 10000) [7000; 9999; 10000] [])
  = Unfinished.
Proof. reflexivity. Qed.

Lemma generate_call (g : Generator) (s : Store) :
  generate g s
  = match call g s with
    | Returned r s' => Returned (toString (gen_id r)) s'
    | Thrown e s' => Thrown e s'
    | Unfinished => Unfinished
    end.
Proof. reflexivity. Qed.

Lemma generateWithInfo_call (g : Generator) (s : Store) :
  generateWithInfo g s
  = match call g s with
    | Returned r s' =>
        Returned (mkInfo (toString (gen_id r))
                         (Number_of_BigInt (gen_timestamp r))
                         (machineId g) (NInt (gen_sequence r))) s'
    | Thrown e s' => Thrown e s'
    | Unfinished => Unfinished
    end.
Proof. reflexivity. Qed.

(** A call of a valid generator returns as soon as the readings after the
    first show a millisecond above [lastTimestamp], unless the clock is more
    than 5000 ms behind. *)
Lemma call_returns (g : Generator) (s : Store) (now : Z) (rest : list Z) :
  valid_generator g -> clock s = now :: rest ->
  lastTimestamp (state s) - now <= 5000 ->
  Exists (fun t => lastTimestamp (state s) < t) rest ->
  exists r s', call g s = Returned r s'.
Proof.
  intros (m & Hm & _) Hclock Hdrift Hlater.
  destruct (spin_terminates _ rest Hlater) as (t & rest' & Hspin).
  unfold call. rewrite generateSnowflakeWithState_cases. unfold generate_cases.
  rewrite Hclock, Hm. cbv zeta. rewrite Hspin.
  destruct (Z.ltb_spec 5000 (lastTimestamp (state s) - now)); [ lia | ].
  repeat match goal with
         | |- context [if ?c then _ else _] => destruct c
         end;
    match goal with
    | |- context [emit ?e (NInt ?m) ?t ?q ?st] =>
        destruct (emit_integral e m t q st) as (id & ->)
    end; eauto.
Qed.

Lemma bitand_MAX_SEQUENCE_range (a : Z) : 0 <= bitand a MAX_SEQUENCE <= 4095.
Proof.
  rewrite bitand_MAX_SEQUENCE.
  pose proof (Z.mod_pos_bound a 4096 ltac:(lia)). lia.
Qed.

(** ** The four ways a call of a valid generator returns

    Each is stated on the readings of the clock alone: [now] is the reading
    the call starts from, and where the call waits, [skipped] are the
    readings it passes over, none above [lastTimestamp], and [t] is the
    first reading above it. *)

Section Returns.

Variables (g : Generator) (s : Store) (now : Z) (rest : list Z).
Hypothesis Hvalid : valid_generator g.
Hypothesis Hclock : clock s = now :: rest.

(** The clock is ahead: the sequence restarts at 0 in millisecond [now],
    after one reading. *)
Lemma call_clock_advanced :
  lastTimestamp (state s) < now ->
  exists id,
    call g s = Returned (mkGenerated id now 0)
                        (mkStore (mkState 0 now) rest (console s)).
Proof.
  intros Hlt. destruct Hvalid as (m & Hm & _).
  unfold call. rewrite generateSnowflakeWithState_cases. unfold generate_cases.
  rewrite Hclock, Hm. cbv zeta.
  destruct (Z.ltb_spec now (lastTimestamp (state s))); [ lia | ].
  destruct (Z.eqb_spec now (lastTimestamp (state s))); [ lia | ].
  match goal with
  | |- context [emit ?e (NInt ?m) ?t ?q ?st] =>
      destruct (emit_integral e m t q st) as (id & ->)
  end.
  eauto.
Qed.

(** The clock shows the millisecond of the previous call and the sequence
    does not wrap: it goes up by one, after one reading. *)
Lemma call_same_millisecond :
  now = lastTimestamp (state s) ->
  (sequence (state s) + 1) mod 4096 <> 0 ->
  exists id,
    call g s
    = Returned (mkGenerated id now ((sequence (state s) + 1) mod 4096))
        (mkStore (mkState ((sequence (state s) + 1) mod 4096) now) rest
                 (console s)).
Proof.
  intros Heq Hnext. destruct Hvalid as (m & Hm & _).
  unfold call. rewrite generateSnowflakeWithState_cases. unfold generate_cases.
  rewrite Hclock, Hm. cbv zeta.
  rewrite bitand_MAX_SEQUENCE.
  destruct (Z.ltb_spec now (lastTimestamp (state s))); [ lia | ].
  destruct (Z.eqb_spec now (lastTimestamp (state s))); [ | lia ].
  destruct (Z.eqb_spec ((sequence (state s) + 1) mod 4096) 0); [ lia | ].
  match goal with
  | |- context [emit ?e (NInt ?m) ?t ?q ?st] =>
      destruct (emit_integral e m t q st) as (id & ->)
  end.
  eauto.
Qed.

(** The sequence wraps: the call passes over [skipped] and uses sequence 0
    in the first later millisecond [t]. *)
Lemma call_sequence_exhausted (skipped : list Z) (t : Z) (rest' : list Z) :
  now = lastTimestamp (state s) ->
  (sequence (state s) + 1) mod 4096 = 0 ->
  rest = skipped ++ t :: rest' ->
  Forall (fun x => x <= lastTimestamp (state s)) skipped ->
  lastTimestamp (state s) < t ->
  exists id,
    call g s = Returned (mkGenerated id t 0)
                        (mkStore (mkState 0 t) rest' (console s)).
Proof.
  intros Heq Hnext Hrest Hall Ht. destruct Hvalid as (m & Hm & _).
  unfold call. rewrite generateSnowflakeWithState_cases. unfold generate_cases.
  rewrite Hclock, Hm. cbv zeta.
  rewrite bitand_MAX_SEQUENCE, Hnext.
  destruct (Z.ltb_spec now (lastTimestamp (state s))); [ lia | ].
  destruct (Z.eqb_spec now (lastTimestamp (state s))); [ | lia ].
  rewrite Hrest, (spin_first_later _ skipped t rest' Hall Ht).
  cbn [Z.eqb].
  match goal with
  | |- context [emit ?e (NInt ?m) ?t ?q ?st] =>
      destruct (emit_integral e m t q st) as (id & ->)
  end.
  eauto.
Qed.

(** The clock is behind by 5000 ms at most: the call passes over [skipped]
    and uses sequence 0 in the first millisecond [t] above
    [lastTimestamp]. *)
Lemma call_drift_waited (skipped : list Z) (t : Z) (rest' : list Z) :
  now < lastTimestamp (state s) ->
  lastTimestamp (state s) - now <= 5000 ->
  rest = skipped ++ t :: rest' ->
  Forall (fun x => x <= lastTimestamp (state s)) skipped ->
  lastTimestamp (state s) < t ->
  exists id,
    call g s
    = Returned (mkGenerated id t 0)
        (mkStore (mkState 0 t) rest'
           (if warnOnDrift g
            then console s ++ [DriftWarning (lastTimestamp (state s) - now)]
            else console s)).
Proof.
  intros Hlt Hsmall Hrest Hall Ht. destruct Hvalid as (m & Hm & _).
  unfold call. rewrite generateSnowflakeWithState_cases. unfold generate_cases.
  rewrite Hclock, Hm. cbv zeta.
  destruct (Z.ltb_spec now (lastTimestamp (state s))); [ | lia ].
  destruct (Z.ltb_spec 5000 (lastTimestamp (state s) - now)); [ lia | ].
  rewrite Hrest, (spin_first_later _ skipped t rest' Hall Ht).
  match goal with
  | |- context [emit ?e (NInt ?m) ?t ?q ?st] =>
      destruct (emit_integral e m t q st) as (id & ->)
  end.
  eauto.
Qed.

End Returns.

(** A call that has to wait is still waiting when the readings end, if none
    of them is above [lastTimestamp]. *)
Lemma call_still_waiting (g : Generator) (s : Store) (now : Z) (rest : list Z) :
  clock s = now :: rest ->
  (now < lastTimestamp (state s) /\ lastTimestamp (state s) - now <= 5000) \/
  (now = lastTimestamp (state s) /\ (sequence (state s) + 1) mod 4096 = 0) ->
  Forall (fun x => x <= lastTimestamp (state s)) rest ->
  call g s = Unfinished.
Proof.
  intros Hclock Hcase Hall.
  unfold call. rewrite generateSnowflakeWithState_cases. unfold generate_cases.
  rewrite Hclock. cbv zeta. rewrite bitand_MAX_SEQUENCE.
  rewrite (spin_all_behind _ rest Hall).
  destruct Hcase as [ [Hlt Hsmall] | [Heq Hwrap] ].
  - destruct (Z.ltb_spec now (lastTimestamp (state s))); [ | lia ].
    destruct (Z.ltb_spec 5000 (lastTimestamp (state s) - now)); [ lia | ].
    reflexivity.
  - destruct (Z.ltb_spec now (lastTimestamp (state s))); [ lia | ].
    destruct (Z.eqb_spec now (lastTimestamp (state s))); [ | lia ].
    rewrite Hwrap. reflexivity.
Qed.

(* ===================================================================== *)
(** * Clock drift *)
(* ===================================================================== *)

(** C3.  With [now] the reading the call starts from: the call throws
    [ClockDriftError] exactly when [now < lastTimestamp] and
    [lastTimestamp - now > 5000]; the error then carries the drift
    [lastTimestamp - now], reaches the caller of [generate] and of
    [generateWithInfo] as thrown, and the call has read the clock once (no
    retry).  When the clock is behind by 5000 ms at most, a valid generator
    throws nothing and waits: if a later reading is above [lastTimestamp],
    the call returns, the readings it has consumed after [now] are
    readings [skipped], none of them above [lastTimestamp], followed by
    the timestamp it returns, which is above [lastTimestamp], and
    [generate] returns the id as text; if no later reading is above
    [lastTimestamp], the call is still waiting when the readings end. *)
Theorem clock_drift_error (g : Generator) (s : Store) (now : Z) (rest : list Z) :
  clock s = now :: rest ->
  let last := lastTimestamp (state s) in
  let drift := last - now in
  let after_throw :=
    mkStore (state s) rest
            (if warnOnDrift g then console s ++ [DriftWarning drift]
             else console s) in
  ((exists d s', call g s = Thrown (ClockDriftError d) s')
   <-> now < last /\ 5000 < drift) /\
  (now < last -> 5000 < drift ->
   call g s = Thrown (ClockDriftError drift) after_throw /\
   generate g s = Thrown (ClockDriftError drift) after_throw /\
   generateWithInfo g s = Thrown (ClockDriftError drift) after_throw) /\
  (now < last -> drift <= 5000 -> valid_generator g ->
   (forall e s', call g s <> Thrown e s') /\
   (Exists (fun t => last < t) rest ->
    exists r s' skipped,
      call g s = Returned r s' /\
      generate g s = Returned (toString (gen_id r)) s' /\
      rest = skipped ++ gen_timestamp r :: clock s' /\
      Forall (fun t => t <= last) skipped /\
      last < gen_timestamp r) /\
   (Forall (fun t => t <= last) rest ->
    call g s = Unfinished /\ generate g s = Unfinished)).
Proof.
  intros Hclock last drift after_throw.
  assert (Hthrow : now < last -> 5000 < drift ->
                   call g s = Thrown (ClockDriftError drift) after_throw).
  { intros Hlt Hbig. unfold call.
    rewrite generateSnowflakeWithState_cases. unfold generate_cases.
    rewrite Hclock. cbv zeta. fold last. fold drift.
    destruct (Z.ltb_spec now last); [ | lia ].
    destruct (Z.ltb_spec 5000 drift); [ | lia ].
    reflexivity. }
  split; [ split | split ].
  - intros (d & s' & Hcall).
    destruct (call_thrown g s _ s' Hcall) as [ Hrange | Hdrift ];
      [ discriminate | ].
    destruct Hdrift as (now' & rest' & Hclock' & Hlt & Hbig & _).
    rewrite Hclock in Hclock'. injection Hclock' as <- <-. auto.
  - intros [Hlt Hbig]. eauto.
  - intros Hlt Hbig. rewrite generate_call, generateWithInfo_call.
    rewrite (Hthrow Hlt Hbig). auto.
  - intros Hlt Hsmall Hg.
    assert (Hwait : Forall (fun t => t <= last) rest -> call g s = Unfinished).
    { intros Hall. apply (call_still_waiting g s now rest Hclock); [ | exact Hall ].
      left. split; assumption. }
    assert (Hgo : Exists (fun t => last < t) rest ->
                  exists r s' skipped,
                    call g s = Returned r s' /\
                    rest = skipped ++ gen_timestamp r :: clock s' /\
                    Forall (fun t => t <= last) skipped /\
                    last < gen_timestamp r).
    { intros Hlater.
      destruct (first_later_reading last rest Hlater)
        as (skipped & t & rest' & Hrest & Hall & Ht).
      destruct (call_drift_waited g s now rest Hg Hclock skipped t rest'
                  Hlt Hsmall Hrest Hall Ht) as (id & Hcall).
      eexists _, _, skipped. split; [ exact Hcall | ].
      cbn [gen_timestamp clock]. auto. }
    split; [ | split ].
    + intros e s' Hcall.
      destruct (Exists_dec (fun t => last < t) rest
                  (fun t => Z_lt_dec last t)) as [ Hlater | Hnone ].
      * destruct (Hgo Hlater) as (r & s1 & _ & Hret & _). congruence.
      * rewrite Hwait in Hcall; [ discriminate | ].
        apply Forall_forall. intros x Hx.
        destruct (Z_le_gt_dec x last) as [ Hle | Hgt ]; [ exact Hle | ].
        exfalso. apply Hnone. apply Exists_exists. exists x. split; [ exact Hx | lia ].
    + intros Hlater.
      destruct (Hgo Hlater) as (r & s' & skipped & Hcall & Hrest & Hall & Ht).
      exists r, s', skipped. rewrite generate_call, Hcall. auto.
    + intros Hall. rewrite generate_call, (Hwait Hall). auto.
Qed.

Lemma clock_drift_error_witness :
  (clock store_behind = 4000 :: [4001] /\
   call generator5 store_behind
   = Thrown (ClockDriftError 6000) store_behind_after) /\
  (clock store_behind_3000 = 7000 :: [9999; 10001; 9000; 10002] /\
   valid_generator generator5 /\
   Exists (fun t => 10000 < t) [9999; 10001; 9000; 10002] /\
   exists r s' skipped,
     call generator5 store_behind_3000 = Returned r s' /\
     generate generator5 store_behind_3000
     = Returned (toString (gen_id r)) s' /\
     [9999; 10001; 9000; 10002] = skipped ++ gen_timestamp r :: clock s' /\
     Forall (fun t => t <= 10000) skipped /\
     10000 < gen_timestamp r).
Proof.
  assert (Hg : valid_generator generator5)
    by (exists 5; split; [ reflexivity | lia ]).
  assert (Hlater : Exists (fun t => 10000 < t) [9999; 10001; 9000; 10002])
    by (apply Exists_cons_tl, Exists_cons_hd; lia).
  split.
  - split; [ reflexivity | ].
    destruct (clock_drift_error generator5 store_behind 4000 [4001] eq_refl)
      as (_ & Hthrow & _).
    apply Hthrow; simpl; lia.
  - split; [ reflexivity | ]. split; [ exact Hg | ]. split; [ exact Hlater | ].
    destruct (clock_drift_error generator5 store_behind_3000 7000
                [9999; 10001; 9000; 10002] eq_refl) as (_ & _ & Hwait).
    destruct Hwait as (_ & Hgo & _); [ simpl; lia | simpl; lia | exact Hg | ].
    exact (Hgo Hlater).
Defined.

(* ===================================================================== *)
(** * The generator state across a call *)
(* ===================================================================== *)

(** C4.  A call that throws [ClockDriftError] leaves [sequence] and
    [lastTimestamp] as they were.  A call that returns has stored the
    timestamp and the sequence of the id it returns: the id is packed from
    them, [lastTimestamp] has not decreased, and the state differs from the
    one before the call. *)
Theorem generate_atomic (g : Generator) (s : Store) :
  (forall d s', call g s = Thrown (ClockDriftError d) s' -> state s' = state s) /\
  (forall r s',
     call g s = Returned r s' ->
     lastTimestamp (state s') = gen_timestamp r /\
     sequence (state s') = gen_sequence r /\
     constructSnowflakeId (gen_timestamp r) (epoch g) (machineId g)
                          (gen_sequence r) = Normal (gen_id r) /\
     lastTimestamp (state s) <= lastTimestamp (state s') /\
     state s' <> state s).
Proof.
  split.
  - intros d s' Hcall.
    destruct (call_thrown g s _ s' Hcall) as [ Hrange | Hdrift ];
      [ discriminate | ].
    destruct Hdrift as (now & rest & _ & _ & _ & _ & ->). reflexivity.
  - intros r s' Hcall.
    destruct (call_returned g s r s' Hcall) as (Hstate & Hid & b & Hb).
    rewrite Hstate. cbn [lastTimestamp sequence].
    repeat split; trivial.
    + destruct Hb as (now & rest & Hclock & Hb).
      destruct b; cbv zeta in Hb.
      * destruct Hb as (_ & _ & _ & Hspin). apply spin_above in Hspin. lia.
      * destruct Hb as (-> & _ & _ & -> & _). lia.
      * destruct Hb as (_ & _ & _ & Hspin). apply spin_above in Hspin. lia.
      * destruct Hb as (Hlt & _ & -> & _). lia.
    + intros Hsame.
      destruct Hb as (now & rest & Hclock & Hb).
      destruct (state s) as [seq last] eqn:Hs. cbn [lastTimestamp sequence] in Hb.
      injection Hsame as Hq Ht.
      destruct b; cbv zeta in Hb.
      * destruct Hb as (_ & _ & _ & Hspin). apply spin_above in Hspin. lia.
      * destruct Hb as (_ & _ & Hseq & _).
        rewrite bitand_MAX_SEQUENCE in Hseq.
        assert (seq = (seq + 1) mod 4096) by congruence.
        Z.div_mod_to_equations. lia.
      * destruct Hb as (_ & _ & _ & Hspin). apply spin_above in Hspin. lia.
      * destruct Hb as (Hlt & _ & Hnow & _). lia.
Qed.

(** C6.  The sequence stays in [0,4095] across every call.  After a call
    that returns it is the sequence of the returned id; it is 0 whenever the
    timestamp of the id is above the previous [lastTimestamp]; when the
    call starts in the millisecond of the previous call it is the previous
    sequence plus one modulo 4096, and if that is 0 the call has passed over
    readings that were not above [lastTimestamp] to the first later
    millisecond and uses 0 there, otherwise it keeps the millisecond.

    And the call of a valid generator does return, in each of these cases,
    with [now] the reading it starts from: when [now] is above
    [lastTimestamp], with sequence 0 in millisecond [now]; when [now] is
    [lastTimestamp] and the sequence does not wrap, with the sequence plus
    one in millisecond [now]; when the sequence wraps, or the clock is
    behind by 5000 ms at most, with sequence 0 in the first later reading
    above [lastTimestamp], after passing over the readings before it, and
    the call is still waiting at the end of the readings if none is above
    [lastTimestamp].  A new generator starts from sequence 0 and
    [lastTimestamp = -1], so that its first call, at a reading [now >= 0],
    returns with sequence 0 in millisecond [now]. *)
Theorem sequence_invariant (g : Generator) (s : Store) :
  (0 <= sequence (state s) <= 4095 ->
   match call g s with
   | Returned _ s' | Thrown _ s' => 0 <= sequence (state s') <= 4095
   | Unfinished => True
   end) /\
  (forall r s',
     call g s = Returned r s' ->
     0 <= sequence (state s') <= 4095 /\
     gen_sequence r = sequence (state s') /\
     (lastTimestamp (state s) < gen_timestamp r -> sequence (state s') = 0) /\
     (forall now rest,
        clock s = now :: rest -> now = lastTimestamp (state s) ->
        sequence (state s') = (sequence (state s) + 1) mod 4096 /\
        (sequence (state s') = 0 ->
         (exists skipped,
            rest = skipped ++ gen_timestamp r :: clock s' /\
            Forall (fun t => t <= lastTimestamp (state s)) skipped) /\
         lastTimestamp (state s) < gen_timestamp r) /\
        (sequence (state s') <> 0 -> gen_timestamp r = now)) /\
     (state s = createGeneratorState ->
      forall now rest, clock s = now :: rest -> 0 <= now ->
      sequence (state s') = 0 /\ gen_timestamp r = now)) /\
  (valid_generator g ->
   forall now rest,
     clock s = now :: rest ->
     let last := lastTimestamp (state s) in
     let next := (sequence (state s) + 1) mod 4096 in
     let waited :=
       fun log : list Warning =>
         forall skipped t rest',
           rest = skipped ++ t :: rest' ->
           Forall (fun x => x <= last) skipped -> last < t ->
           exists id,
             call g s = Returned (mkGenerated id t 0)
                                 (mkStore (mkState 0 t) rest' log) in
     (last < now ->
      exists id,
        call g s = Returned (mkGenerated id now 0)
                            (mkStore (mkState 0 now) rest (console s))) /\
     (state s = createGeneratorState -> 0 <= now ->
      exists id,
        call g s = Returned (mkGenerated id now 0)
                            (mkStore (mkState 0 now) rest (console s))) /\
     (now = last -> next <> 0 ->
      exists id,
        call g s = Returned (mkGenerated id now next)
                            (mkStore (mkState next now) rest (console s))) /\
     (now = last -> next = 0 ->
      waited (console s) /\
      (Exists (fun t => last < t) rest ->
       exists r s',
         call g s = Returned r s' /\ gen_sequence r = 0 /\
         last < gen_timestamp r) /\
      (Forall (fun t => t <= last) rest -> call g s = Unfinished)) /\
     (now < last -> last - now <= 5000 ->
      waited (if warnOnDrift g
              then console s ++ [DriftWarning (last - now)]
              else console s) /\
      (Forall (fun t => t <= last) rest -> call g s = Unfinished))) /\
  createGeneratorState = mkState 0 (-1).
Proof.
  split; [ | split; [ | split; [ | reflexivity ] ] ].
  - intros Hin.
    destruct (call g s) as [ r s' | e s' | ] eqn:Hcall; [ | | exact I ].
    + destruct (call_returned g s r s' Hcall) as (Hstate & _ & b & Hb).
      rewrite Hstate. cbn [sequence].
      destruct Hb as (now & rest & _ & Hb).
      destruct b; cbv zeta in Hb.
      * destruct Hb as (_ & _ & -> & _). lia.
      * destruct Hb as (_ & _ & -> & _). apply bitand_MAX_SEQUENCE_range.
      * destruct Hb as (_ & _ & -> & _). lia.
      * destruct Hb as (_ & -> & _). lia.
    + revert Hcall. unfold call.
      rewrite generateSnowflakeWithState_cases. unfold generate_cases.
      pose proof (bitand_MAX_SEQUENCE_range (sequence (state s) + 1)) as Hb.
      destruct (clock s) as [ | now rest ]; [ discriminate | ]. cbv zeta.
      unfold emit.
      repeat match goal with
             | |- context [if ?c then _ else _] => destruct c
             | |- context [match spin ?a ?b with _ => _ end] =>
                 destruct (spin a b) as [ [? ?] | ]
             | |- context [match constructSnowflakeId ?a ?b ?c ?d with _ => _ end] =>
                 destruct (constructSnowflakeId a b c d)
             end;
        try discriminate; intros [= _ <-]; cbn [state sequence]; lia.
  - intros r s' Hcall.
    destruct (call_returned g s r s' Hcall)
      as (Hstate & _ & b & now & rest & Hclock & Hb).
    rewrite Hstate. cbn [sequence lastTimestamp].
    pose proof (bitand_MAX_SEQUENCE_range (sequence (state s) + 1)) as Hrange.
    pose proof (bitand_MAX_SEQUENCE (sequence (state s) + 1)) as Hmod.
    assert (Hinit : state s = createGeneratorState ->
                    lastTimestamp (state s) = -1) by (intros ->; reflexivity).
    assert (Hsame : forall now' rest',
              clock s = now' :: rest' -> now' = now /\ rest' = rest)
      by (intros ? ? H'; rewrite Hclock in H'; now injection H').
    clear Hclock Hstate Hcall.
    destruct b; cbv zeta in Hb; decompose [and] Hb; clear Hb;
      try match goal with
          | H : spin _ _ = Some _ |- _ =>
              pose proof (spin_above _ _ _ _ H);
              pose proof (spin_split _ _ _ _ H)
          end;
      repeat (intros; match goal with |- _ /\ _ => split end); intros;
      repeat match goal with
             | H : clock s = _ :: _ |- _ => apply Hsame in H; destruct H
             end;
      try match goal with
          | H : state s = createGeneratorState |- _ => apply Hinit in H
          end;
      subst; try assumption; try lia; try congruence.
  - intros Hg now rest Hclock last next waited.
    assert (Hadvanced : last < now ->
              exists id,
                call g s = Returned (mkGenerated id now 0)
                                    (mkStore (mkState 0 now) rest (console s)))
      by exact (call_clock_advanced g s now rest Hg Hclock).
    split; [ exact Hadvanced | split; [ | split; [ | split ] ] ].
    + intros Hstate Hnow. apply Hadvanced. subst last. rewrite Hstate.
      cbn [lastTimestamp createGeneratorState]. lia.
    + exact (call_same_millisecond g s now rest Hg Hclock).
    + intros Heq Hwrap.
      assert (Hwaited : waited (console s)).
      { intros skipped t rest'.
        exact (call_sequence_exhausted g s now rest Hg Hclock skipped t rest'
                 Heq Hwrap). }
      split; [ exact Hwaited | split ].
      * intros Hlater.
        destruct (first_later_reading last rest Hlater)
          as (skipped & t & rest' & Hrest & Hall & Ht).
        destruct (Hwaited skipped t rest' Hrest Hall Ht) as (id & Hcall).
        eexists _, _. split; [ exact Hcall | ]. cbn [gen_sequence gen_timestamp].
        auto.
      * apply (call_still_waiting g s now rest Hclock). right. auto.
    + intros Hlt Hsmall. split.
      * intros skipped t rest'.
        exact (call_drift_waited g s now rest Hg Hclock skipped t rest'
                 Hlt Hsmall).
      * apply (call_still_waiting g s now rest Hclock). left. auto.
Qed.

Lemma generate_atomic_witness :
  call generator5 store_behind
  = Thrown (ClockDriftError 6000) store_behind_after /\
  state store_behind_after = state store_behind.
Proof.
  split; [ reflexivity | ].
  destruct (generate_atomic generator5 store_behind) as (Hthrown & _).
  apply (Hthrown 6000 store_behind_after). reflexivity.
Defined.

Lemma sequence_invariant_witness :
  (valid_generator generator5 /\
   clock store_fresh = 1000 :: [] /\
   state store_fresh = createGeneratorState /\ 0 <= 1000 /\
   clock store_exhausted = 1000 :: [1000; 1001; 1001] /\
   1000 = lastTimestamp (state store_exhausted) /\
   (sequence (state store_exhausted) + 1) mod 4096 = 0) /\
  (exists id,
     call generator5 store_fresh
     = Returned (mkGenerated id 1000 0) store_fresh_after) /\
  (exists id,
     call generator5 store_exhausted
     = Returned (mkGenerated id 1001 0) store_exhausted_after1).
Proof.
  assert (Hg : valid_generator generator5)
    by (exists 5; split; [ reflexivity | lia ]).
  split; [ repeat split; trivial; lia | ].
  split.
  - destruct (sequence_invariant generator5 store_fresh) as (_ & _ & Hreturns & _).
    destruct (Hreturns Hg 1000 [] eq_refl) as (_ & Hfirst & _).
    apply Hfirst; [ reflexivity | lia ].
  - destruct (sequence_invariant generator5 store_exhausted)
      as (_ & _ & Hreturns & _).
    destruct (Hreturns Hg 1000 [1000; 1001; 1001] eq_refl)
      as (_ & _ & _ & Hwrap & _).
    destruct Hwrap as (Hwaited & _); [ reflexivity | reflexivity | ].
    apply (Hwaited [1000] 1001 [1001]);
      [ reflexivity | repeat constructor; simpl; lia | simpl; lia ].
Defined.

(* ===================================================================== *)
(** * The warning flag *)
(* ===================================================================== *)

(** C9.  Two calls that differ in [warnOnDrift] only have the same outcome
    up to the console: the same returned [(id, timestamp, sequence)] or the
    same thrown error, the same counters, the same clock readings consumed.
    Without the flag the console is untouched; with it, one drift warning
    is added exactly when the first reading is below [lastTimestamp]. *)
Theorem warnOnDrift_observability_only (epoch : bigint) (machineId : number)
    (s : Store) :
  mute_outcome (generateSnowflakeWithState epoch machineId true s)
  = mute_outcome (generateSnowflakeWithState epoch machineId false s) /\
  (forall log,
     final_console (generateSnowflakeWithState epoch machineId false s)
     = Some log -> log = console s) /\
  (forall log,
     final_console (generateSnowflakeWithState epoch machineId true s)
     = Some log ->
     log = console s ++
           match clock s with
           | now :: _ =>
               if now <? lastTimestamp (state s)
               then [DriftWarning (lastTimestamp (state s) - now)]
               else []
           | [] => []
           end).
Proof.
  rewrite !generateSnowflakeWithState_cases. unfold generate_cases.
  destruct (clock s) as [ | now rest ]; [ repeat split; discriminate | ].
  cbv zeta. unfold emit.
  destruct (now <? lastTimestamp (state s));
    [ destruct (5000 <? lastTimestamp (state s) - now) | ];
    repeat match goal with
           | |- context [if ?c then _ else _] => destruct c
           | |- context [match spin ?a ?b with _ => _ end] =>
               destruct (spin a b) as [ [? ?] | ]
           | |- context [match constructSnowflakeId ?a ?b ?c ?d with _ => _ end] =>
               destruct (constructSnowflakeId a b c d)
           end;
    repeat split; try discriminate; try reflexivity;
    cbn [final_console console]; intros log [= <-];
    try reflexivity; now rewrite app_nil_r.
Qed.

Lemma warnOnDrift_observability_only_witness :
  final_console (generateSnowflakeWithState 0 (NInt 5) false store_behind)
  = Some [] /\
  [] = console store_behind.
Proof.
  split; [ reflexivity | ].
  destruct (warnOnDrift_observability_only 0 (NInt 5) store_behind)
    as (_ & Hsilent & _).
  apply Hsilent. reflexivity.
Defined.

(* ===================================================================== *)
(** * The identifiers a generator hands out *)
(* ===================================================================== *)

(** The id of a returning call of a valid generator, as a sum of fields. *)
Lemma call_id_packed (g : Generator) (s : Store) (r : Generated) (s' : Store) :
  valid_generator g -> call g s = Returned r s' ->
  exists m,
    machineId g = NInt m /\ 0 <= m <= 1023 /\
    0 <= gen_sequence r <= 4095 /\
    gen_id r = packed (gen_timestamp r - epoch g) m (gen_sequence r).
Proof.
  intros (m & Hm & Hrange) Hcall.
  destruct (call_returned g s r s' Hcall) as (_ & Hid & b & now & rest & _ & Hb).
  assert (Hq : 0 <= gen_sequence r <= 4095).
  { pose proof (bitand_MAX_SEQUENCE_range (sequence (state s) + 1)).
    destruct b; cbv zeta in Hb; decompose [and] Hb; lia. }
  exists m. repeat split; try assumption; try lia.
  rewrite Hm, constructSnowflakeId_packed in Hid by assumption.
  now injection Hid.
Qed.

(** C7, as stated, fails: a generator built today with the epoch
    [-1000000000000] (April 1938, so in the past: construction succeeds,
    with the overflow warning) returns, on its first call, an id whose bit 63
    is set. *)
Lemma generated_id_sign_bit_set :
  createSnowflakeGenerator options_1938 host_plain store_today
  = Returned generator_1938 store_today_created /\
  call generator_1938 store_today_created
  = Returned (mkGenerated 11585204518916198400 1762128000001 0)
             store_today_after /\
  generate generator_1938 store_today_created
  = Returned "11585204518916198400"%string store_today_after /\
  ~ (0 <= 11585204518916198400 < 2 ^ 63).
Proof.
  split; [ vm_compute; reflexivity | ].
  split; [ vm_compute; reflexivity | ].
  split; [ vm_compute; reflexivity | ].
  change (2 ^ 63) with 9223372036854775808. lia.
Qed.

(** C7, amended.  The id a valid generator returns is non-negative and
    below [2^63] exactly when the timestamp it encodes, [timestamp - epoch],
    is in [0, 2^41); [generate] returns the decimal text of that id. *)
Theorem generated_id_sign_bit (g : Generator) (s : Store) (r : Generated)
    (s' : Store) :
  valid_generator g -> call g s = Returned r s' ->
  generate g s = Returned (toString (gen_id r)) s' /\
  (0 <= gen_id r < 2 ^ 63 <-> 0 <= gen_timestamp r - epoch g < 2 ^ 41).
Proof.
  intros Hg Hcall.
  split; [ rewrite generate_call, Hcall; reflexivity | ].
  destruct (call_id_packed g s r s' Hg Hcall) as (m & _ & Hm & Hq & ->).
  unfold packed. change (2 ^ 63) with 9223372036854775808.
  change (2 ^ 41) with 2199023255552. lia.
Qed.

Lemma generated_id_sign_bit_witness :
  (valid_generator generator5 /\
   call generator5 store_fresh
   = Returned (mkGenerated 4194324480 1000 0) store_fresh_after) /\
  generate generator5 store_fresh
  = Returned "4194324480"%string store_fresh_after /\
  (0 <= 4194324480 < 2 ^ 63 <-> 0 <= 1000 - 0 < 2 ^ 41).
Proof.
  assert (Hg : valid_generator generator5)
    by (exists 5; split; [ reflexivity | lia ]).
  split; [ split; [ exact Hg | reflexivity ] | ].
  apply (generated_id_sign_bit generator5 store_fresh
           (mkGenerated 4194324480 1000 0) store_fresh_after Hg).
  reflexivity.
Defined.

(** The timestamp of a returned id is one of the readings of the clock. *)
Lemma call_timestamp_reading (g : Generator) (s : Store) (r : Generated)
    (s' : Store) :
  call g s = Returned r s' -> In (gen_timestamp r) (clock s).
Proof.
  intros Hcall.
  destruct (call_returned g s r s' Hcall) as (_ & _ & b & now & rest & Hclock & Hb).
  rewrite Hclock.
  destruct b; cbv zeta in Hb; decompose [and] Hb; clear Hb;
    try match goal with
        | H : spin _ _ = Some _ |- _ =>
            destruct (spin_split _ _ _ _ H) as (skipped & -> & _);
            right; apply in_or_app; right; left; reflexivity
        end;
    left; congruence.
Qed.

(** The round trip through the exported functions: what [generateWithInfo]
    reports is what [parseSnowflakeId] reads back from the id, given the
    epoch [getEpoch] reports, when the clock shows time values. *)
Lemma parse_generateWithInfo (g : Generator) (s : Store) (info : SnowflakeInfo)
    (s' : Store) :
  valid_generator g -> is_double (NInt (epoch g)) ->
  Forall time_value (clock s) ->
  generateWithInfo g s = Returned info s' ->
  parseSnowflakeId (IdString (info_id info)) (Some (getEpoch g)) = Normal info.
Proof.
  intros Hg Hepoch Hclock Hinfo.
  rewrite generateWithInfo_call in Hinfo.
  destruct (call g s) as [ r s1 | | ] eqn:Hcall; try discriminate.
  injection Hinfo as <- <-. cbn [info_id].
  destruct (call_id_packed g s r s1 Hg Hcall) as (m & Hm & Hrange & Hq & Hid).
  pose proof (call_timestamp_reading g s r s1 Hcall) as Hin.
  rewrite Forall_forall in Hclock. apply Hclock in Hin.
  apply time_value_is_double, Number_of_BigInt_double in Hin.
  unfold getEpoch. rewrite (Number_of_BigInt_double _ Hepoch), Hm, Hin.
  rewrite (parseSnowflakeId_packed (IdString (toString (gen_id r)))
             (toString (gen_id r)) (gen_timestamp r - epoch g) m
             (gen_sequence r) (epoch g) Hrange Hq).
  - replace (gen_timestamp r - epoch g + epoch g) with (gen_timestamp r) by lia.
    now rewrite Hin.
  - split; [ | reflexivity ]. rewrite Hid. apply BigInt_of_toString.
Qed.

(** A non-decreasing clock stays so, and never shows less than the
    timestamp just handed out. *)
Lemma call_clock_sorted (g : Generator) (s : Store) (r : Generated) (s' : Store) :
  StronglySorted Z.le (clock s) -> call g s = Returned r s' ->
  StronglySorted Z.le (gen_timestamp r :: clock s').
Proof.
  intros Hsorted Hcall.
  destruct (call_returned g s r s' Hcall) as (_ & _ & b & now & rest & Hclock & Hb).
  rewrite Hclock in Hsorted.
  pose proof (StronglySorted_inv Hsorted) as [Hrest _].
  destruct b; cbv zeta in Hb; decompose [and] Hb; clear Hb;
    try (eapply spin_sorted; eassumption);
    match goal with
    | Ht : gen_timestamp r = _, Hc : clock s' = _ |- _ =>
        rewrite Ht, Hc; exact Hsorted
    end.
Qed.

Lemma consecutive_calls_increase (g : Generator) (s s1 s2 : Store)
    (r1 r2 : Generated) :
  valid_generator g -> StronglySorted Z.le (clock s) ->
  call g s = Returned r1 s1 -> call g s1 = Returned r2 s2 ->
  gen_id r1 < gen_id r2.
Proof.
  intros Hg Hsorted Hcall1 Hcall2.
  destruct (call_id_packed g s r1 s1 Hg Hcall1) as (m & Hm & Hrange & Hq1 & ->).
  destruct (call_id_packed g s1 r2 s2 Hg Hcall2) as (m' & Hm' & _ & Hq2 & ->).
  assert (m' = m) by congruence. subst m'.
  pose proof (call_clock_sorted g s r1 s1 Hsorted Hcall1) as Hsorted1.
  destruct (call_returned g s r1 s1 Hcall1) as (Hstate1 & _ & _).
  destruct (call_returned g s1 r2 s2 Hcall2) as (_ & _ & b & now & rest & Hclock & Hb).
  rewrite Hstate1 in Hb. cbn [lastTimestamp sequence] in Hb.
  rewrite Hclock in Hsorted1.
  apply StronglySorted_inv in Hsorted1. destruct Hsorted1 as [_ Hall].
  apply Forall_inv in Hall.
  rewrite bitand_MAX_SEQUENCE in Hb.
  unfold packed.
  destruct b; cbv zeta in Hb; decompose [and] Hb; clear Hb;
    try match goal with
        | H : spin _ _ = Some _ |- _ => pose proof (spin_above _ _ _ _ H)
        end;
    try lia.
  assert (gen_sequence r2 = gen_sequence r1 + 1); [ | lia ].
  match goal with
  | H : gen_sequence r2 = _ mod _ |- _ => rewrite H in *
  end.
  Z.div_mod_to_equations. lia.
Qed.

(** Over a whole run of calls the ids come out in strictly increasing
    order. *)
Lemma ids_increase_over_a_run (g : Generator) (n : nat) (s : Store)
    (rs : list Generated) (s' : Store) :
  valid_generator g -> StronglySorted Z.le (clock s) ->
  calls g n s = Returned rs s' ->
  Sorted Z.lt (map gen_id rs).
Proof.
  intros Hg. revert s rs s'.
  induction n as [ | k IH ]; intros s rs s' Hsorted Hrun.
  - injection Hrun as <- _. constructor.
  - cbn [calls] in Hrun. unfold bind in Hrun.
    destruct (call g s) as [ r s1 | | ] eqn:Hcall; try discriminate.
    destruct (calls g k s1) as [ rs1 s2 | | ] eqn:Hrest; try discriminate.
    injection Hrun as <- <-.
    pose proof (call_clock_sorted g s r s1 Hsorted Hcall) as Hsorted1.
    apply StronglySorted_inv in Hsorted1. destruct Hsorted1 as [Hsorted1 _].
    cbn [map]. constructor.
    + eapply IH; eassumption.
    + destruct k as [ | k' ].
      { injection Hrest as <- _. apply HdRel_nil. }
      cbn [calls] in Hrest. unfold bind in Hrest.
      destruct (call g s1) as [ r2 s3 | | ] eqn:Hcall2; try discriminate.
      destruct (calls g k' s3) as [ rs3 s4 | | ]; try discriminate.
      injection Hrest as <- _. cbn [map]. constructor.
      exact (consecutive_calls_increase g s s1 s3 r r2 Hg Hsorted Hcall Hcall2).
Qed.

(** C2.  On one generator with a machine id in [0,1023] (as every generator
    built by [createSnowflakeGenerator] has, see [created_generator_valid]),
    under a non-decreasing clock, the identifiers returned by two
    consecutive calls of [generate] that both return are decimal texts of
    integers, the second strictly greater than the first; this covers the
    three branches (same millisecond, sequence exhausted and waited, clock
    advanced).  The clock after the first call is again non-decreasing, so
    the statement applies to every later pair of calls. *)
Theorem consecutive_ids_increase (g : Generator) (s s1 s2 : Store)
    (id1 id2 : string) :
  valid_generator g -> Sorted Z.le (clock s) ->
  generate g s = Returned id1 s1 -> generate g s1 = Returned id2 s2 ->
  (exists n1 n2,
     BigInt_of_string id1 = Some n1 /\ BigInt_of_string id2 = Some n2 /\
     n1 < n2) /\
  Sorted Z.le (clock s1).
Proof.
  intros Hg Hsorted Hgen1 Hgen2.
  apply Sorted_StronglySorted in Hsorted; [ | exact Z.le_trans ].
  rewrite generate_call in Hgen1, Hgen2.
  destruct (call g s) as [ r1 s1' | | ] eqn:Hcall1; try discriminate.
  injection Hgen1 as <- <-.
  destruct (call g s1') as [ r2 s2' | | ] eqn:Hcall2; try discriminate.
  injection Hgen2 as <- <-.
  split.
  - exists (gen_id r1), (gen_id r2).
    split; [ apply BigInt_of_toString | ].
    split; [ apply BigInt_of_toString | ].
    eapply consecutive_calls_increase; eassumption.
  - pose proof (call_clock_sorted g s r1 s1' Hsorted Hcall1) as Hs1.
    apply StronglySorted_inv in Hs1.
    apply StronglySorted_Sorted, Hs1.
Qed.

Lemma consecutive_ids_increase_witness :
  (valid_generator generator5 /\ Sorted Z.le (clock store_exhausted) /\
   generate generator5 store_exhausted
   = Returned "4198518784"%string store_exhausted_after1 /\
   generate generator5 store_exhausted_after1
   = Returned "4198518785"%string store_exhausted_after2) /\
  (exists n1 n2,
     BigInt_of_string "4198518784" = Some n1 /\
     BigInt_of_string "4198518785" = Some n2 /\
     n1 < n2) /\
  Sorted Z.le (clock store_exhausted_after1).
Proof.
  assert (Hg : valid_generator generator5)
    by (exists 5; split; [ reflexivity | lia ]).
  assert (Hsorted : Sorted Z.le (clock store_exhausted)).
  { simpl. repeat constructor; lia. }
  split; [ repeat split; trivial | ].
  apply (consecutive_ids_increase generator5 store_exhausted
           store_exhausted_after1 store_exhausted_after2 _ _ Hg Hsorted);
    reflexivity.
Defined.

(* ===================================================================== *)
(** * Construction *)
(* ===================================================================== *)

Lemma validateMachineId_accepts (n : number) (s : Store) :
  machineId_in_range n -> validateMachineId n s = Returned tt s.
Proof.
  intros (m & -> & Hm). unfold validateMachineId, num_lt, num_gt.
  rewrite MAX_MACHINE_ID_value. cbn [Number_isInteger negb orb num_compare dyadic].
  change (2 ^ 0) with 1. rewrite !Z.mul_1_r.
  destruct (Z.compare_spec m 0); destruct (Z.compare_spec m 1023);
    try lia; reflexivity.
Qed.

Lemma validateMachineId_rejects (n : number) (s : Store) :
  ~ machineId_in_range n -> validateMachineId n s = Thrown InvalidMachineId s.
Proof.
  intros Hout. unfold validateMachineId, num_lt, num_gt.
  destruct n as [ m | | | ]; try reflexivity.
  rewrite MAX_MACHINE_ID_value. cbn [Number_isInteger negb orb num_compare dyadic].
  change (2 ^ 0) with 1. rewrite !Z.mul_1_r.
  destruct (Z.compare_spec m 0); destruct (Z.compare_spec m 1023);
    try reflexivity; exfalso; apply Hout; exists m; split; trivial; lia.
Qed.

(** [validateEpoch] reads the clock once and throws nothing but
    [InvalidEpoch] or a [RangeError]; it leaves the counters alone. *)
Lemma validateEpoch_outcome (e : number) (s : Store) :
  match validateEpoch e s with
  | Returned _ s' => state s' = state s
  | Thrown err s' => (err = InvalidEpoch \/ err = RangeError) /\ state s' = state s
  | Unfinished => True
  end.
Proof.
  unfold validateEpoch, bind, Date_now.
  destruct (clock s) as [ | now rest ]; [ exact I | ].
  destruct (num_ge e (NInt now)); [ cbn [throw state set_clock]; auto | ].
  destruct (BigInt_of_number (num_sub (NInt now) e));
    cbn [lift ret throw state set_clock]; [ | auto ].
  destruct (yearsUntilOverflow_below_1 _); reflexivity.
Qed.

Lemma floor_random_times_range (h : Host) :
  random_in_unit_interval h ->
  0 <= floor_random_times h (MAX_MACHINE_ID + 1) <= 1023.
Proof.
  intros [Hexp Hnum]. unfold floor_random_times.
  rewrite MAX_MACHINE_ID_value. change (1023 + 1) with 1024.
  assert (Hpos : 0 < 2 ^ random_exp h) by (apply Z.pow_pos_nonneg; lia).
  split.
  - apply Z.div_pos; lia.
  - assert (random_num h * 1024 / 2 ^ random_exp h < 1024); [ | lia ].
    apply Z.div_lt_upper_bound; lia.
Qed.

(** The machine id derived when none is given. *)
Lemma generateMachineIdFromHostname_range (h : Host) (s : Store) :
  random_in_unit_interval h ->
  exists m s',
    generateMachineIdFromHostname h s = Returned (NInt m) s' /\
    0 <= m <= 1023 /\ state s' = state s /\ clock s' = clock s.
Proof.
  intros Hrandom. unfold generateMachineIdFromHostname.
  destruct (hostname_digest h) as [ hash | ].
  - eexists _, _. split; [ reflexivity | ].
    rewrite bitand_MAX_MACHINE_ID.
    match goal with
    | |- 0 <= ?x mod 1024 <= _ /\ _ =>
        pose proof (Z.mod_pos_bound x 1024 ltac:(lia))
    end.
    repeat split; trivial; lia.
  - eexists _, _. split; [ reflexivity | ].
    pose proof (floor_random_times_range h Hrandom).
    repeat split; trivial; lia.
Qed.

(** Every generator that [createSnowflakeGenerator] returns is valid and
    starts from fresh counters. *)
Lemma created_generator_valid (options : SnowflakeOptions) (h : Host)
    (s : Store) (g : Generator) (s' : Store) :
  random_in_unit_interval h ->
  createSnowflakeGenerator options h s = Returned g s' ->
  valid_generator g /\ state s' = createGeneratorState.
Proof.
  intros Hrandom. unfold createSnowflakeGenerator, bind.
  destruct (opt_machineId options) as [ mid | ].
  - cbn [ret].
    destruct (BigInt_of_number _) as [ e | ]; [ | discriminate ].
    cbn [lift ret].
    assert (Hdec : machineId_in_range mid \/ ~ machineId_in_range mid).
    { destruct mid as [ m | | | ];
        [ | right; intros (? & Heq & _); discriminate Heq .. ].
      destruct (Z_le_dec 0 m); [ destruct (Z_le_dec m 1023) | ];
        [ left; exists m; auto | | ];
        right; intros (? & [= <-] & ?); lia. }
    destruct Hdec as [ Hin | Hout ].
    + rewrite (validateMachineId_accepts mid s Hin).
      destruct (validateEpoch _ s) as [ [] s1 | | ]; try discriminate.
      intros [= <- <-]. split; [ exact Hin | reflexivity ].
    + rewrite (validateMachineId_rejects mid s Hout). discriminate.
  - destruct (generateMachineIdFromHostname_range h s Hrandom)
      as (m & s1 & -> & Hm & _).
    destruct (BigInt_of_number _) as [ e | ]; [ | discriminate ].
    cbn [lift ret].
    destruct (validateEpoch _ s1) as [ [] s2 | | ]; try discriminate.
    intros [= <- <-]. split; [ exists m; auto | reflexivity ].
Qed.

(** C8.  With an explicit [machineId] that is not an integer in [0,1023]
    the construction throws and returns no generator, whatever the other
    options, the host and the clock; the error is [InvalidMachineId], and
    the store is untouched, whenever the [epoch] option is an integer or
    absent (the conversion [BigInt(epoch)] comes first in the source and
    throws on any other epoch).  So it is for [machineId = 1024].  With an
    explicit [machineId] that is an integer in [0,1023] the construction
    never throws [InvalidMachineId]. *)
Theorem explicit_machineId_validated (options : SnowflakeOptions) (h : Host)
    (s : Store) (mid : number) :
  opt_machineId options = Some mid ->
  (~ machineId_in_range mid ->
   (exists e, createSnowflakeGenerator options h s = Thrown e s) /\
   (epoch_integral options ->
    createSnowflakeGenerator options h s = Thrown InvalidMachineId s)) /\
  (mid = NInt 1024 -> epoch_integral options ->
   createSnowflakeGenerator options h s = Thrown InvalidMachineId s) /\
  (machineId_in_range mid ->
   forall s', createSnowflakeGenerator options h s <> Thrown InvalidMachineId s').
Proof.
  intros Hopt.
  assert (Hreject : ~ machineId_in_range mid ->
            (exists e, createSnowflakeGenerator options h s = Thrown e s) /\
            (epoch_integral options ->
             createSnowflakeGenerator options h s = Thrown InvalidMachineId s)).
  { intros Hout. unfold createSnowflakeGenerator, bind, epoch_integral.
    rewrite Hopt. cbn [ret].
    destruct (opt_epoch options) as [ [ e | | | ] | ];
      cbn [nullish BigInt_of_number lift ret throw];
      try rewrite (validateMachineId_rejects mid s Hout);
      split; eauto; contradiction. }
  split; [ exact Hreject | split ].
  - intros -> Hepoch. apply Hreject; [ | exact Hepoch ].
    intros (m & [= <-] & Hm). lia.
  - intros Hin s'. unfold createSnowflakeGenerator, bind.
    rewrite Hopt. cbn [ret].
    destruct (BigInt_of_number _) as [ e | ]; [ | discriminate ].
    cbn [lift ret].
    rewrite (validateMachineId_accepts mid s Hin).
    pose proof (validateEpoch_outcome (Number_of_BigInt e) s) as Hepoch.
    destruct (validateEpoch _ s) as [ [] s1 | err s1 | ]; try discriminate.
    destruct Hepoch as [ [ -> | -> ] _ ]; discriminate.
Qed.

Lemma explicit_machineId_validated_witness :
  (opt_machineId (mkOptions (Some (NInt 1024)) None None) = Some (NInt 1024) /\
   epoch_integral (mkOptions (Some (NInt 1024)) None None)) /\
  createSnowflakeGenerator (mkOptions (Some (NInt 1024)) None None)
                           host_plain store_today
  = Thrown InvalidMachineId store_today.
Proof.
  split; [ split; [ reflexivity | exact I ] | ].
  destruct (explicit_machineId_validated
              (mkOptions (Some (NInt 1024)) None None) host_plain store_today
              (NInt 1024) eq_refl) as (_ & H1024 & _).
  apply H1024; [ reflexivity | exact I ].
Defined.

(** C10.  When [options.machineId] is omitted, the derived machine id, from
    the digest of the host name or from [Math.random()] when that fails (a
    draw in [0,1)), is an integer in [0,1023]; the construction is then the
    program with no call of [validateMachineId] in it, it never throws
    [InvalidMachineId], and a generator it returns carries a machine id in
    [0,1023]. *)
Theorem default_machineId_in_range (options : SnowflakeOptions) (h : Host)
    (s : Store) :
  opt_machineId options = None ->
  random_in_unit_interval h ->
  (exists m s',
     generateMachineIdFromHostname h s = Returned (NInt m) s' /\
     0 <= m <= 1023) /\
  createSnowflakeGenerator options h
  = (machineId <- generateMachineIdFromHostname h ;;
     epoch <- lift (match BigInt_of_number
                            (nullish (opt_epoch options) (NInt DEFAULT_EPOCH)) with
                    | Some b => Normal b
                    | None => Throw RangeError
                    end) ;;
     ret tt ;;;
     validateEpoch (Number_of_BigInt epoch) ;;;
     (fun s => Returned tt (set_state createGeneratorState s)) ;;;
     ret (mkGenerator machineId epoch (nullish (opt_warnOnDrift options) true))) /\
  (forall s', createSnowflakeGenerator options h s <> Thrown InvalidMachineId s') /\
  (forall g s',
     createSnowflakeGenerator options h s = Returned g s' ->
     machineId_in_range (machineId g)).
Proof.
  intros Hopt Hrandom.
  split; [ | split; [ | split ] ].
  - destruct (generateMachineIdFromHostname_range h s Hrandom)
      as (m & s1 & Hgen & Hm & _). eauto.
  - unfold createSnowflakeGenerator. rewrite Hopt. reflexivity.
  - intros s'. unfold createSnowflakeGenerator, bind. rewrite Hopt.
    destruct (generateMachineIdFromHostname_range h s Hrandom)
      as (m & s1 & -> & _).
    destruct (BigInt_of_number _) as [ e | ]; [ | discriminate ].
    cbn [lift ret].
    pose proof (validateEpoch_outcome (Number_of_BigInt e) s1) as Hepoch.
    destruct (validateEpoch _ s1) as [ [] s2 | err s2 | ]; try discriminate.
    destruct Hepoch as [ [ -> | -> ] _ ]; discriminate.
  - intros g s' Hcreate.
    apply (created_generator_valid options h s g s' Hrandom Hcreate).
Qed.

Lemma default_machineId_in_range_witness :
  (opt_machineId (mkOptions None None None) = None /\
   random_in_unit_interval host_plain) /\
  exists m s',
    generateMachineIdFromHostname host_plain store_today = Returned (NInt m) s' /\
    0 <= m <= 1023.
Proof.
  assert (Hrandom : random_in_unit_interval host_plain)
    by (cbv; repeat split; discriminate).
  split; [ split; [ reflexivity | exact Hrandom ] | ].
  destruct (default_machineId_in_range (mkOptions None None None) host_plain
              store_today eq_refl Hrandom) as (Hm & _).
  exact Hm.
Defined.

(* ===================================================================== *)
(** * The epoch check *)
(* ===================================================================== *)

Lemma num_ge_integers (a b : Z) : num_ge (NInt a) (NInt b) = (b <=? a).
Proof.
  unfold num_ge. cbn [num_compare dyadic]. change (2 ^ 0) with 1.
  rewrite !Z.mul_1_r.
  destruct (Z.compare_spec a b); destruct (Z.leb_spec b a); trivial; lia.
Qed.

Lemma num_lt_integers (a b : Z) : num_lt (NInt a) (NInt b) = (a <? b).
Proof.
  unfold num_lt. cbn [num_compare dyadic]. change (2 ^ 0) with 1.
  rewrite !Z.mul_1_r.
  destruct (Z.compare_spec a b); destruct (Z.ltb_spec a b); trivial; lia.
Qed.

(** [validateEpoch] on an integral epoch throws "Epoch must be in the past"
    exactly when the epoch is not below the reading of the clock: an epoch
    equal to now is refused too.  The throw happens after one reading, with
    the counters and the console untouched. *)
Theorem validateEpoch_rejects_present_and_future (e now : Z) (rest : list Z)
    (s : Store) :
  clock s = now :: rest ->
  (now <= e ->
   validateEpoch (NInt e) s
   = Thrown InvalidEpoch (mkStore (state s) rest (console s))) /\
  (e < now -> forall s', validateEpoch (NInt e) s <> Thrown InvalidEpoch s').
Proof.
  intros Hclock. unfold validateEpoch, bind, Date_now. rewrite Hclock.
  rewrite num_ge_integers. split.
  - intros Hle. destruct (Z.leb_spec now e); [ reflexivity | lia ].
  - intros Hlt s'. destruct (Z.leb_spec now e); [ lia | ].
    destruct (BigInt_of_number _); cbn [lift ret throw]; [ | discriminate ].
    destruct (yearsUntilOverflow_below_1 _); discriminate.
Qed.

Lemma validateEpoch_rejects_present_and_future_witness :
  clock store_today = 1762128000000 :: [1762128000001] /\
  validateEpoch (NInt 1762128001000) store_today
  = Thrown InvalidEpoch
           (mkStore (state store_today) [1762128000001] (console store_today)).
Proof.
  split; [ reflexivity | ].
  destruct (validateEpoch_rejects_present_and_future
              1762128001000 1762128000000 [1762128000001] store_today eq_refl)
    as (Hfuture & _).
  apply Hfuture. lia.
Defined.

(** What [validateEpoch] does with an epoch in the past (less than [2^53]
    ms back): it returns after one reading. *)
Lemma validateEpoch_past (e now : Z) (rest : list Z) (s : Store) :
  clock s = now :: rest -> e < now -> now - e < 2 ^ 53 ->
  validateEpoch (NInt e) s
  = Returned tt (mkStore (state s) rest (console s ++ overflow_log e now)).
Proof.
  intros Hclock Hlt Hnear.
  change (2 ^ 53) with 9007199254740992 in Hnear.
  unfold validateEpoch, bind, Date_now. rewrite Hclock.
  rewrite num_ge_integers.
  destruct (Z.leb_spec now e); [ lia | ].
  cbn [num_sub].
  rewrite (Number_of_BigInt_exact (now - e))
    by (change (2 ^ 53) with 9007199254740992; lia).
  cbn [BigInt_of_number lift ret]. change (Z.shiftl 1 41) with (2 ^ 41).
  fold (remaining_ms e now).
  assert (Hrem : Z.abs (remaining_ms e now) < 2 ^ 53).
  { unfold remaining_ms. change (2 ^ 41) with 2199023255552.
    change (2 ^ 53) with 9007199254740992. lia. }
  rewrite (Number_of_BigInt_exact _ Hrem).
  unfold yearsUntilOverflow_below_1, overflow_log. rewrite num_lt_integers.
  fold year_ms.
  destruct (remaining_ms e now <? year_ms).
  - reflexivity.
  - unfold ret, set_clock. cbn [state clock console]. now rewrite app_nil_r.
Qed.

(** [validateEpoch] warns about the overflow of the 41-bit timestamp field
    exactly when fewer than 365 days of milliseconds are left before
    [now - epoch] exceeds [2^41 - 1], also when the field has overflowed
    already; the warning never stops the call, which returns after one
    reading of the clock with the counters untouched. *)
Theorem validateEpoch_overflow_warning (e now : Z) (rest : list Z) (s : Store) :
  clock s = now :: rest -> e < now -> now - e < 2 ^ 53 ->
  exists s',
    validateEpoch (NInt e) s = Returned tt s' /\
    state s' = state s /\ clock s' = rest /\
    (2 ^ 41 - 1 - (now - e) < 31536000000 ->
     console s' = console s ++ [OverflowWarning (NInt (2 ^ 41 - 1 - (now - e)))]) /\
    (31536000000 <= 2 ^ 41 - 1 - (now - e) -> console s' = console s).
Proof.
  intros Hclock Hlt Hnear.
  rewrite (validateEpoch_past e now rest s Hclock Hlt Hnear).
  eexists. split; [ reflexivity | ]. cbn [state clock console].
  unfold overflow_log, remaining_ms. change year_ms with 31536000000.
  repeat split.
  - intros Hfew.
    destruct (Z.ltb_spec (2 ^ 41 - 1 - (now - e)) 31536000000); [ reflexivity | lia ].
  - intros Hmany.
    destruct (Z.ltb_spec (2 ^ 41 - 1 - (now - e)) 31536000000);
      [ lia | apply app_nil_r ].
Qed.

Lemma validateEpoch_overflow_warning_witness :
  (clock store_today = 1762128000000 :: [1762128000001] /\
   -1000000000000 < 1762128000000 /\
   1762128000000 - -1000000000000 < 2 ^ 53 /\
   2 ^ 41 - 1 - (1762128000000 - -1000000000000) < 31536000000) /\
  exists s',
    validateEpoch (NInt (-1000000000000)) store_today = Returned tt s' /\
    console s' = console store_today ++ [OverflowWarning (NInt (-563104744449))].
Proof.
  assert (H1 : clock store_today = 1762128000000 :: [1762128000001]) by reflexivity.
  assert (H2 : -1000000000000 < 1762128000000) by lia.
  assert (H3 : 1762128000000 - -1000000000000 < 2 ^ 53) by reflexivity.
  assert (H4 : 2 ^ 41 - 1 - (1762128000000 - -1000000000000) < 31536000000)
    by reflexivity.
  split; [ repeat split; assumption | ].
  destruct (validateEpoch_overflow_warning
              (-1000000000000) 1762128000000 [1762128000001] store_today
              H1 H2 H3) as (s' & Hret & _ & _ & Hwarn & _).
  exists s'. split; [ exact Hret | exact (Hwarn H4) ].
Defined.

(* ===================================================================== *)
(** * The busy wait *)
(* ===================================================================== *)

(** [waitForNextMillisecond(last)] returns the first reading of the clock
    that is strictly above [last]: every reading it skipped was at most
    [last], the readings after the returned one are left for later, and the
    counters and the console are untouched.  It is still waiting at the end
    of the readings exactly when none of them is above [last]; it never
    throws. *)
Theorem waitForNextMillisecond_first_later_reading (last : Z) (s : Store) :
  (forall t s',
     waitForNextMillisecond last s = Returned t s' ->
     last < t /\
     state s' = state s /\ console s' = console s /\
     exists skipped,
       clock s = skipped ++ t :: clock s' /\
       Forall (fun x => x <= last) skipped) /\
  (waitForNextMillisecond last s = Unfinished
   <-> Forall (fun x => x <= last) (clock s)) /\
  (forall e s', waitForNextMillisecond last s <> Thrown e s').
Proof.
  unfold waitForNextMillisecond.
  destruct (spin last (clock s)) as [ [t rest] | ] eqn:Hspin.
  - split; [ | split ].
    + intros t' s' [= <- <-]. cbn [state clock console set_clock].
      split; [ eapply spin_above, Hspin | ].
      repeat split. apply spin_split, Hspin.
    + split; [ discriminate | ].
      intros Hall. exfalso.
      destruct (spin_split _ _ _ _ Hspin) as (skipped & Heq & _).
      pose proof (spin_above _ _ _ _ Hspin) as Habove.
      rewrite Heq in Hall. apply Forall_app in Hall. destruct Hall as [_ Hall].
      apply Forall_inv in Hall. lia.
    + discriminate.
  - split; [ discriminate | split; [ | discriminate ] ].
    split; [ intros _; apply spin_none, Hspin | reflexivity ].
Qed.

Lemma waitForNextMillisecond_first_later_reading_witness :
  waitForNextMillisecond 1000 store_exhausted
  = Returned 1001 store_exhausted_after1_wait /\
  1000 < 1001.
Proof.
  split; [ reflexivity | ].
  destruct (waitForNextMillisecond_first_later_reading 1000 store_exhausted)
    as (Hret & _).
  apply (Hret 1001 store_exhausted_after1_wait). reflexivity.
Defined.

(* ===================================================================== *)
(** * Construction, continued *)
(* ===================================================================== *)

Lemma generateMachineIdFromHostname_run (h : Host) (s : Store) :
  generateMachineIdFromHostname h s
  = Returned (derived_machineId h)
             (mkStore (state s) (clock s) (console s ++ hostname_log h)).
Proof.
  unfold generateMachineIdFromHostname, derived_machineId, hostname_log.
  destruct (hostname_digest h); [ | reflexivity ].
  unfold ret. rewrite app_nil_r. now destruct s.
Qed.

Lemma validateEpoch_not_past (e now : Z) (rest : list Z) (s : Store) :
  clock s = now :: rest -> now <= e ->
  validateEpoch (NInt e) s
  = Thrown InvalidEpoch (mkStore (state s) rest (console s)).
Proof.
  intros Hclock Hle. unfold validateEpoch, bind, Date_now. rewrite Hclock.
  rewrite num_ge_integers.
  destruct (Z.leb_spec now e); [ reflexivity | lia ].
Qed.

(** Construction up to the epoch check, for options that pass the checks
    before it. *)
Lemma createSnowflakeGenerator_run (options : SnowflakeOptions) (h : Host)
    (s : Store) (e : Z) :
  machineId_option_valid options ->
  nullish (opt_epoch options) (NInt DEFAULT_EPOCH) = NInt e ->
  is_double (NInt e) ->
  createSnowflakeGenerator options h s
  = match validateEpoch (NInt e) (store_after_machineId options h s) with
    | Returned _ s1 =>
        Returned (mkGenerator (nullish (opt_machineId options) (derived_machineId h))
                              e (nullish (opt_warnOnDrift options) true))
                 (set_state createGeneratorState s1)
    | Thrown err s1 => Thrown err s1
    | Unfinished => Unfinished
    end.
Proof.
  intros Hmid Hepoch Hdouble.
  unfold createSnowflakeGenerator, bind, machineId_option_valid,
    store_after_machineId in *.
  rewrite Hepoch. cbn [BigInt_of_number lift ret].
  rewrite (Number_of_BigInt_double e Hdouble).
  destruct (opt_machineId options) as [ mid | ].
  - cbn [ret nullish]. rewrite (validateMachineId_accepts mid s Hmid).
    destruct (validateEpoch (NInt e) s) as [ [] s1 | | ]; reflexivity.
  - rewrite generateMachineIdFromHostname_run. cbv [nullish ret].
    destruct (validateEpoch (NInt e) _) as [ [] s1 | | ]; reflexivity.
Qed.

(** What a returned generator carries, whatever the options. *)
Lemma createSnowflakeGenerator_returned (options : SnowflakeOptions) (h : Host)
    (s : Store) (g : Generator) (s' : Store) :
  createSnowflakeGenerator options h s = Returned g s' ->
  machineId g = nullish (opt_machineId options) (derived_machineId h) /\
  nullish (opt_epoch options) (NInt DEFAULT_EPOCH) = NInt (epoch g) /\
  warnOnDrift g = nullish (opt_warnOnDrift options) true /\
  state s' = createGeneratorState /\
  exists now, clock s = now :: clock s'.
Proof.
  unfold createSnowflakeGenerator, bind.
  assert (Hclock : forall n st u st',
            validateEpoch n st = Returned u st' ->
            exists now, clock st = now :: clock st').
  { intros n st u st'. unfold validateEpoch, bind, Date_now.
    destruct (clock st) as [ | now rest ]; [ discriminate | ].
    destruct (num_ge n (NInt now)); [ discriminate | ].
    destruct (BigInt_of_number _); cbn [lift ret throw]; [ | discriminate ].
    destruct (yearsUntilOverflow_below_1 _); intros Heq; exists now;
      exact (f_equal (fun o => match o with
                               | Returned _ x => now :: clock x
                               | _ => []
                               end) Heq). }
  destruct (opt_machineId options) as [ mid | ].
  - cbn [ret nullish].
    destruct (nullish (opt_epoch options) (NInt DEFAULT_EPOCH)) as [ e | | | ];
      cbn [BigInt_of_number lift ret throw]; try discriminate.
    unfold validateMachineId.
    destruct (_ || _); [ discriminate | ]. cbn [ret].
    destruct (validateEpoch _ s) as [ [] s1 | | ] eqn:Hv; try discriminate.
    intros [= <- <-]. cbn [machineId epoch warnOnDrift set_state state clock].
    repeat split. eapply Hclock, Hv.
  - rewrite generateMachineIdFromHostname_run. cbn [nullish].
    destruct (nullish (opt_epoch options) (NInt DEFAULT_EPOCH)) as [ e | | | ];
      cbv [BigInt_of_number lift ret throw]; try discriminate.
    destruct (validateEpoch _ _) as [ [] s1 | | ] eqn:Hv; try discriminate.
    intros [= <- <-]. cbn [machineId epoch warnOnDrift set_state state clock].
    repeat split. apply Hclock in Hv. exact Hv.
Qed.

(** An epoch that is not strictly in the past makes the construction throw
    "Epoch must be in the past", for every machine id that passes its own
    check (explicit and in [0,1023], or omitted): no generator is returned,
    the counters are untouched and one reading of the clock is consumed. *)
Theorem construction_rejects_future_epoch (options : SnowflakeOptions)
    (h : Host) (s : Store) (e now : Z) (rest : list Z) :
  machineId_option_valid options ->
  nullish (opt_epoch options) (NInt DEFAULT_EPOCH) = NInt e ->
  is_double (NInt e) ->
  clock s = now :: rest -> now <= e ->
  createSnowflakeGenerator options h s
  = Thrown InvalidEpoch
           (mkStore (state s) rest (console (store_after_machineId options h s))).
Proof.
  intros Hmid Hepoch Hdouble Hclock Hle.
  rewrite (createSnowflakeGenerator_run options h s e Hmid Hepoch Hdouble).
  rewrite (validateEpoch_not_past e now rest).
  - unfold store_after_machineId. now destruct (opt_machineId options).
  - unfold store_after_machineId. now destruct (opt_machineId options).
  - exact Hle.
Qed.

Lemma construction_rejects_future_epoch_witness :
  (machineId_option_valid (mkOptions None (Some (NInt 1762128001000)) None) /\
   is_double (NInt 1762128001000) /\
   clock store_today = 1762128000000 :: [1762128000001] /\
   1762128000000 <= 1762128001000) /\
  createSnowflakeGenerator (mkOptions None (Some (NInt 1762128001000)) None)
                           host_plain store_today
  = Thrown InvalidEpoch
           (mkStore createGeneratorState [1762128000001] [HostnameWarning]).
Proof.
  assert (Hd : is_double (NInt 1762128001000)).
  { split; [ reflexivity | ].
    apply Z.lt_le_trans with (2 ^ 53); [ reflexivity | ].
    apply Z.pow_le_mono_r; lia. }
  split; [ repeat split; try exact I; try apply Hd; try reflexivity; lia | ].
  apply (construction_rejects_future_epoch
           (mkOptions None (Some (NInt 1762128001000)) None) host_plain
           store_today 1762128001000 1762128000000 [1762128000001]
           I eq_refl Hd eq_refl).
  lia.
Defined.

(** With a machine id that passes its check and an epoch in the past (less
    than [2^53] ms back) the construction succeeds: it reads the clock
    once, returns a generator carrying the given machine id, or the derived
    one, the given epoch, or [DEFAULT_EPOCH], and the given flag, or [true],
    and starts it from sequence 0 and [lastTimestamp = -1]. *)
Theorem construction_succeeds (options : SnowflakeOptions) (h : Host)
    (s : Store) (e now : Z) (rest : list Z) :
  machineId_option_valid options ->
  nullish (opt_epoch options) (NInt DEFAULT_EPOCH) = NInt e ->
  is_double (NInt e) ->
  clock s = now :: rest -> e < now -> now - e < 2 ^ 53 ->
  createSnowflakeGenerator options h s
  = Returned (mkGenerator (nullish (opt_machineId options) (derived_machineId h))
                          e (nullish (opt_warnOnDrift options) true))
             (mkStore createGeneratorState rest
                      (console (store_after_machineId options h s)
                         ++ overflow_log e now)).
Proof.
  intros Hmid Hepoch Hdouble Hclock Hlt Hnear.
  rewrite (createSnowflakeGenerator_run options h s e Hmid Hepoch Hdouble).
  rewrite (validateEpoch_past e now rest); trivial.
  unfold store_after_machineId. now destruct (opt_machineId options).
Qed.

Lemma construction_succeeds_witness :
  (machineId_option_valid options_1938 /\
   is_double (NInt (-1000000000000)) /\
   clock store_today = 1762128000000 :: [1762128000001] /\
   -1000000000000 < 1762128000000 /\
   1762128000000 - -1000000000000 < 2 ^ 53) /\
  createSnowflakeGenerator options_1938 host_plain store_today
  = Returned generator_1938 store_today_created.
Proof.
  assert (Hmid : machineId_option_valid options_1938)
    by (exists 1; split; [ reflexivity | lia ]).
  assert (Hd : is_double (NInt (-1000000000000))).
  { split; [ reflexivity | ].
    apply Z.lt_le_trans with (2 ^ 53); [ reflexivity | ].
    apply Z.pow_le_mono_r; lia. }
  assert (Hnear : 1762128000000 - -1000000000000 < 2 ^ 53) by reflexivity.
  split; [ repeat split; trivial; try apply Hd; lia | ].
  apply (construction_succeeds options_1938 host_plain store_today
           (-1000000000000) 1762128000000 [1762128000001]
           Hmid eq_refl Hd eq_refl); trivial; lia.
Defined.

(** The accessors of a generator return the configuration it was built
    from: [getMachineId()] the [machineId] option, or the derived id when
    there is none, and [getEpoch()] the [epoch] option, or [DEFAULT_EPOCH];
    the generator keeps the [warnOnDrift] option, [true] by default. *)
Theorem accessors_return_configuration (options : SnowflakeOptions) (h : Host)
    (s : Store) (g : Generator) (s' : Store) :
  createSnowflakeGenerator options h s = Returned g s' ->
  getMachineId g = nullish (opt_machineId options) (derived_machineId h) /\
  (forall n, opt_epoch options = Some n -> is_double n -> getEpoch g = n) /\
  (opt_epoch options = None -> getEpoch g = NInt DEFAULT_EPOCH) /\
  warnOnDrift g = nullish (opt_warnOnDrift options) true.
Proof.
  intros Hcreate.
  destruct (createSnowflakeGenerator_returned options h s g s' Hcreate)
    as (Hmid & Hepoch & Hwarn & _).
  unfold getMachineId, getEpoch. split; [ exact Hmid | ].
  split; [ | split; [ | exact Hwarn ] ].
  - intros n Hn Hdouble. rewrite Hn in Hepoch. cbn [nullish] in Hepoch.
    subst n. now apply Number_of_BigInt_double.
  - intros Hnone. rewrite Hnone in Hepoch. cbn [nullish] in Hepoch.
    injection Hepoch as <-. reflexivity.
Qed.

Lemma accessors_return_configuration_witness :
  createSnowflakeGenerator options_1938 host_plain store_today
  = Returned generator_1938 store_today_created /\
  getMachineId generator_1938 = NInt 1 /\
  getEpoch generator_1938 = NInt (-1000000000000).
Proof.
  split; [ vm_compute; reflexivity | ].
  destruct (accessors_return_configuration options_1938 host_plain store_today
              generator_1938 store_today_created)
    as (Hmid & Hepoch & _).
  - vm_compute; reflexivity.
  - split; [ exact Hmid | ].
    apply (Hepoch (NInt (-1000000000000)) eq_refl).
    split; [ reflexivity | ].
    apply Z.lt_le_trans with (2 ^ 53); [ reflexivity | ].
    apply Z.pow_le_mono_r; lia.
Defined.

(* ===================================================================== *)
(** * Round trips, continued *)
(* ===================================================================== *)

Lemma parse_generateWithInfo_witness :
  (valid_generator generator5 /\ is_double (NInt (epoch generator5)) /\
   Forall time_value (clock store_fresh) /\
   generateWithInfo generator5 store_fresh
   = Returned (mkInfo "4194324480" (NInt 1000) (NInt 5) (NInt 0))
              store_fresh_after) /\
  parseSnowflakeId (IdString "4194324480") (Some (getEpoch generator5))
  = Normal (mkInfo "4194324480" (NInt 1000) (NInt 5) (NInt 0)).
Proof.
  assert (Hg : valid_generator generator5)
    by (exists 5; split; [ reflexivity | lia ]).
  assert (Hd : is_double (NInt (epoch generator5))).
  { split; [ reflexivity | ]. apply Z.pow_pos_nonneg; lia. }
  assert (Hclock : Forall time_value (clock store_fresh)).
  { repeat constructor. unfold time_value. simpl. lia. }
  split; [ repeat split; trivial | ].
  apply (parse_generateWithInfo generator5 store_fresh
           (mkInfo "4194324480" (NInt 1000) (NInt 5) (NInt 0))
           store_fresh_after Hg Hd Hclock).
  reflexivity.
Defined.

(** Parsing then packing: for every integer id, also a negative one or one
    beyond 64 bits, the fields [parseSnowflakeId] returns are integers from
    which [constructSnowflakeId], with the same epoch, builds the id back;
    so two ids with the same fields are equal.  The timestamp has to be a
    safe integer (below [2^53] in magnitude). *)
Theorem construct_parse_roundtrip (id e : Z) :
  Z.abs (Z.shiftr id 22 + e) < 2 ^ 53 ->
  exists t m q,
    parseSnowflakeId (IdBigInt id) (Some (NInt e))
    = Normal (mkInfo (toString id) (NInt t) (NInt m) (NInt q)) /\
    constructSnowflakeId t e (NInt m) q = Normal id.
Proof.
  intros Hsafe.
  exists (Z.shiftr id 22 + e), (Z.land (Z.shiftr id 12) 1023), (Z.land id 4095).
  split.
  - rewrite parseSnowflakeId_arbitrary.
    now rewrite (Number_of_BigInt_exact _ Hsafe).
  - assert (Hq' : 0 <= Z.land id 4095 < 4096).
    { change 4095 with (Z.ones 12). rewrite Z.land_ones by lia.
      apply Z.mod_pos_bound. reflexivity. }
    assert (Hm' : 0 <= Z.land (Z.shiftr id 12) 1023 < 1024).
    { change 1023 with (Z.ones 10). rewrite Z.land_ones by lia.
      apply Z.mod_pos_bound. reflexivity. }
    assert (Hq : 0 <= Z.land id 4095 <= 4095) by lia.
    assert (Hm : 0 <= Z.land (Z.shiftr id 12) 1023 <= 1023) by lia.
    clear Hq' Hm'.
    rewrite constructSnowflakeId_packed by assumption.
    f_equal. unfold packed.
    change 4095 with (Z.ones 12). change 1023 with (Z.ones 10).
    rewrite !Z.land_ones, !Z.shiftr_div_pow2 by lia.
    change (2 ^ 12) with 4096. change (2 ^ 10) with 1024.
    change (2 ^ 22) with 4194304.
    Z.div_mod_to_equations. lia.
Qed.

Lemma construct_parse_roundtrip_witness :
  Z.abs (Z.shiftr (-1) 22 + 0) < 2 ^ 53 /\
  exists t m q,
    parseSnowflakeId (IdBigInt (-1)) (Some (NInt 0))
    = Normal (mkInfo (toString (-1)) (NInt t) (NInt m) (NInt q)) /\
    constructSnowflakeId t 0 (NInt m) q = Normal (-1).
Proof.
  assert (H : Z.abs (Z.shiftr (-1) 22 + 0) < 2 ^ 53) by reflexivity.
  split; [ exact H | ].
  exact (construct_parse_roundtrip (-1) 0 H).
Defined.

(* ===================================================================== *)
(** * Uniqueness *)
(* ===================================================================== *)

(** Two calls in a row, whatever the clock and the console do between and
    during them: the second starts from the counters the first left. *)
Lemma consecutive_calls_increase_any_clock (g : Generator) (s s1 s1' s2 : Store)
    (r1 r2 : Generated) :
  valid_generator g ->
  call g s = Returned r1 s1 -> state s1' = state s1 ->
  call g s1' = Returned r2 s2 ->
  gen_id r1 < gen_id r2 /\ gen_timestamp r1 <= gen_timestamp r2.
Proof.
  intros Hg Hcall1 Hsame Hcall2.
  destruct (call_id_packed g s r1 s1 Hg Hcall1) as (m & Hm & Hrange & Hq1 & ->).
  destruct (call_id_packed g s1' r2 s2 Hg Hcall2) as (m' & Hm' & _ & Hq2 & ->).
  assert (m' = m) by congruence. subst m'.
  destruct (call_returned g s r1 s1 Hcall1) as (Hstate1 & _ & _).
  destruct (call_returned g s1' r2 s2 Hcall2) as (_ & _ & b & now & rest & Hclock & Hb).
  rewrite Hsame, Hstate1 in Hb. cbn [lastTimestamp sequence] in Hb.
  rewrite bitand_MAX_SEQUENCE in Hb.
  unfold packed.
  destruct b; cbv zeta in Hb; decompose [and] Hb; clear Hb;
    try match goal with
        | H : spin _ _ = Some _ |- _ => pose proof (spin_above _ _ _ _ H)
        end;
    try lia.
  assert (gen_sequence r2 = gen_sequence r1 + 1); [ | lia ].
  match goal with
  | H : gen_sequence r2 = _ mod _ |- _ => rewrite H in *
  end.
  Z.div_mod_to_equations. lia.
Qed.

Lemma Sorted_lt_NoDup (l : list Z) : Sorted Z.lt l -> NoDup l.
Proof.
  intros Hsorted.
  apply Sorted_StronglySorted in Hsorted; [ | exact Z.lt_trans ].
  induction Hsorted as [ | x l _ IH Hall ]; constructor; [ | exact IH ].
  intros Hin. rewrite Forall_forall in Hall. specialize (Hall x Hin). lia.
Qed.

(** Over any number of calls of one generator, all returning, the ids come
    out in strictly increasing order and so are pairwise distinct, and the
    timestamps never decrease.  Nothing is asked of the clock: when it goes
    backwards a call waits (or throws), it never reuses a millisecond. *)
Theorem ids_unique_over_a_run (g : Generator) (n : nat) (s : Store)
    (rs : list Generated) (s' : Store) :
  valid_generator g ->
  calls g n s = Returned rs s' ->
  List.length rs = n /\
  Sorted Z.lt (map gen_id rs) /\
  NoDup (map gen_id rs) /\
  Sorted Z.le (map gen_timestamp rs).
Proof.
  intros Hg Hrun.
  cut (List.length rs = n /\ Sorted Z.lt (map gen_id rs)
       /\ Sorted Z.le (map gen_timestamp rs)).
  { intros (Hlen & Hids & Hts). auto using Sorted_lt_NoDup. }
  revert s rs s' Hrun.
  induction n as [ | k IH ]; intros s rs s' Hrun.
  - injection Hrun as <- _. repeat split; constructor.
  - cbn [calls] in Hrun. unfold bind in Hrun.
    destruct (call g s) as [ r s1 | | ] eqn:Hcall; try discriminate.
    destruct (calls g k s1) as [ rs1 s2 | | ] eqn:Hrest; try discriminate.
    injection Hrun as <- <-.
    destruct (IH s1 rs1 s2 Hrest) as (Hlen & Hids & Hts).
    cbn [map List.length].
    assert (Hhead : HdRel Z.lt (gen_id r) (map gen_id rs1) /\
                    HdRel Z.le (gen_timestamp r) (map gen_timestamp rs1)).
    { destruct k as [ | k' ].
      - injection Hrest as <- _. split; apply HdRel_nil.
      - cbn [calls] in Hrest. unfold bind in Hrest.
        destruct (call g s1) as [ r2 s3 | | ] eqn:Hcall2; try discriminate.
        destruct (calls g k' s3) as [ rs3 s4 | | ]; try discriminate.
        injection Hrest as <- _. cbn [map].
        destruct (consecutive_calls_increase_any_clock g s s1 s1 s3 r r2
                    Hg Hcall eq_refl Hcall2).
        split; constructor; assumption. }
    destruct Hhead.
    repeat split; [ congruence | constructor; assumption .. ].
Qed.

Lemma ids_unique_over_a_run_witness :
  (valid_generator generator5 /\
   calls generator5 2 store_behind_3000
   = Returned [mkGenerated 41947254784 10001 0; mkGenerated 41951449088 10002 0]
              store_behind_3000_after) /\
  NoDup [41947254784; 41951449088].
Proof.
  assert (Hg : valid_generator generator5)
    by (exists 5; split; [ reflexivity | lia ]).
  split; [ split; [ exact Hg | reflexivity ] | ].
  destruct (ids_unique_over_a_run generator5 2 store_behind_3000
              [mkGenerated 41947254784 10001 0; mkGenerated 41951449088 10002 0]
              store_behind_3000_after Hg eq_refl) as (_ & _ & Hnodup & _).
  exact Hnodup.
Defined.

(* ===================================================================== *)
(** * The machine id of the host *)
(* ===================================================================== *)

Lemma byte_range (b : Byte.byte) : 0 <= Z.of_N (Byte.to_N b) <= 255.
Proof. destruct b; vm_compute; split; discriminate. Qed.

(** When the host name hashes, the derived machine id is made of the two
    low bits of the first byte of the digest followed by the whole second
    byte, [(hash[0] mod 4) * 256 + hash[1]]: the other bits and bytes of the
    digest play no part.  Nothing is sent to the console and the clock is
    not read. *)
Theorem hostname_machineId_bits (h : Host) (s : Store) (b0 b1 : Byte.byte)
    (others : list Byte.byte) :
  hostname_digest h = Some (b0 :: b1 :: others) ->
  generateMachineIdFromHostname h s
  = Returned (NInt (Z.of_N (Byte.to_N b0) mod 4 * 256 + Z.of_N (Byte.to_N b1))) s.
Proof.
  intros Hdigest. unfold generateMachineIdFromHostname. rewrite Hdigest.
  unfold ret. do 2 f_equal.
  rewrite bitand_MAX_MACHINE_ID. cbn [byte_at nth_error].
  pose proof (byte_range b0) as H0. pose proof (byte_range b1) as H1.
  set (x0 := Z.of_N (Byte.to_N b0)) in *.
  set (x1 := Z.of_N (Byte.to_N b1)) in *.
  assert (Hint : forall z, 0 <= z < 2 ^ 31 -> ToInt32 z = z).
  { intros z Hz. unfold ToInt32.
    change (2 ^ 31) with 2147483648 in *. change (2 ^ 32) with 4294967296.
    rewrite Z.mod_small; lia. }
  unfold bitor, shl. change (8 mod 32) with 8.
  rewrite (Hint x0) by (change (2 ^ 31) with 2147483648; lia).
  rewrite Z.shiftl_mul_pow2 by lia. change (2 ^ 8) with 256.
  rewrite (Hint (x0 * 256)) by (change (2 ^ 31) with 2147483648; lia).
  rewrite (Hint (x0 * 256)) by (change (2 ^ 31) with 2147483648; lia).
  rewrite (Hint x1) by (change (2 ^ 31) with 2147483648; lia).
  replace (x0 * 256) with (Z.shiftl x0 8)
    by (rewrite Z.shiftl_mul_pow2 by lia; reflexivity).
  rewrite lor_shiftl_low by (change (2 ^ 8) with 256; lia).
  change (2 ^ 8) with 256.
  Z.div_mod_to_equations. lia.
Qed.

Lemma hostname_machineId_bits_witness :
  hostname_digest (mkHost (Some [Byte.xab; Byte.xcd; Byte.xef]) 0 0)
  = Some [Byte.xab; Byte.xcd; Byte.xef] /\
  generateMachineIdFromHostname
    (mkHost (Some [Byte.xab; Byte.xcd; Byte.xef]) 0 0) store_fresh
  = Returned (NInt 973) store_fresh.
Proof.
  split; [ reflexivity | ].
  exact (hostname_machineId_bits
           (mkHost (Some [Byte.xab; Byte.xcd; Byte.xef]) 0 0) store_fresh
           Byte.xab Byte.xcd [Byte.xef] eq_refl).
Defined.

(* ===================================================================== *)
(** * The default generator and [generateSnowflakeId] *)
(* ===================================================================== *)

(** The first call of a generator just made, at a reading [t >= 0]. *)
Lemma call_fresh (g : Generator) (s : Store) (t : Z) (rest : list Z) :
  state s = createGeneratorState -> clock s = t :: rest -> 0 <= t ->
  call g s
  = emit (epoch g) (machineId g) t 0 (mkStore (mkState 0 t) rest (console s)).
Proof.
  intros Hstate Hclock Ht. unfold call.
  rewrite generateSnowflakeWithState_cases. unfold generate_cases.
  rewrite Hclock, Hstate. cbn [lastTimestamp sequence createGeneratorState].
  destruct (Z.ltb_spec t (-1)); [ lia | ].
  destruct (Z.eqb_spec t (-1)); [ lia | ]. reflexivity.
Qed.

(** One call of [generateSnowflakeId(options)]: a generator is made and
    called once. *)
Lemma generateSnowflakeId_options_returned (dg : Generator)
    (o : SnowflakeOptions) (h : Host) (w : World) (id : string) (w' : World) :
  generateSnowflakeId dg (Some o) h w = Returned id w' ->
  exists g s1 r s2,
    createSnowflakeGenerator o h
      (mkStore createGeneratorState (w_clock w) (w_console w))
    = Returned g s1 /\
    call g s1 = Returned r s2 /\
    id = toString (gen_id r) /\
    w' = mkWorld (default_state w) (clock s2) (console s2).
Proof.
  unfold generateSnowflakeId, on_fresh, bind.
  destruct (createSnowflakeGenerator o h _) as [ g s1 | | ] eqn:Hcreate;
    try discriminate.
  rewrite generate_call.
  destruct (call g s1) as [ r s2 | | ] eqn:Hcall; try discriminate.
  intros [= <- <-]. exists g, s1, r, s2. auto.
Qed.

(** One call of [generateSnowflakeId(options)] whose generator reads
    millisecond [t >= 0]: the id is packed from [t], the machine id given
    or derived at this call, and sequence 0. *)
Lemma generateSnowflakeId_options_fresh (dg : Generator) (o : SnowflakeOptions)
    (h : Host) (w : World) (id : string) (w' : World) (n t : Z) (tail : list Z) :
  random_in_unit_interval h ->
  w_clock w = n :: t :: tail -> 0 <= t ->
  generateSnowflakeId dg (Some o) h w = Returned id w' ->
  w_clock w' = tail /\ default_state w' = default_state w /\
  exists m e,
    nullish (opt_machineId o) (derived_machineId h) = NInt m /\
    0 <= m <= 1023 /\
    nullish (opt_epoch o) (NInt DEFAULT_EPOCH) = NInt e /\
    id = toString (packed (t - e) m 0).
Proof.
  intros Hrandom Hw Ht Hrun.
  destruct (generateSnowflakeId_options_returned dg o h w id w' Hrun)
    as (g & s1 & r & s2 & Hcreate & Hcall & -> & ->).
  destruct (created_generator_valid o h _ g s1 Hrandom Hcreate)
    as ((m & Hm & Hrange) & _).
  destruct (createSnowflakeGenerator_returned o h _ g s1 Hcreate)
    as (Hmid & Hepoch & _ & Hstate & k & Hs1).
  cbn [clock] in Hs1. rewrite Hw in Hs1. injection Hs1 as _ Hs1.
  rewrite (call_fresh g s1 t tail Hstate (eq_sym Hs1) Ht) in Hcall.
  apply emit_returned in Hcall. destruct Hcall as (-> & _ & _ & Hid).
  rewrite Hm, constructSnowflakeId_packed in Hid by lia.
  injection Hid as <-.
  cbn [w_clock default_state clock]. repeat split.
  exists m, (epoch g). rewrite <- Hmid, Hm. auto.
Qed.

(** [generateSnowflakeId(options)] makes a new generator at every call, so
    the sequence starts from 0 each time.  Two calls with the same options
    that read the same millisecond [t], on hosts [h1] and [h2] (the host
    name digest and the draw of [Math.random()] at each call), return the
    same identifier exactly when the two generators have the same machine
    id: always when [options.machineId] is given, and when the host name
    is hashed to the same digest at both calls; when hashing fails, each
    call draws its machine id anew and the identifiers coincide only if
    the draws give the same machine id.  The counters of the default
    generator are not touched. *)
Theorem generateSnowflakeId_options_repeats_id (dg : Generator)
    (o : SnowflakeOptions) (h1 h2 : Host) (w w1 w2 : World) (id1 id2 : string)
    (now1 now2 t : Z) (rest : list Z) :
  random_in_unit_interval h1 -> random_in_unit_interval h2 ->
  w_clock w = now1 :: t :: now2 :: t :: rest -> 0 <= t ->
  generateSnowflakeId dg (Some o) h1 w = Returned id1 w1 ->
  generateSnowflakeId dg (Some o) h2 w1 = Returned id2 w2 ->
  (id1 = id2 <->
   nullish (opt_machineId o) (derived_machineId h1)
   = nullish (opt_machineId o) (derived_machineId h2)) /\
  (opt_machineId o <> None -> id1 = id2) /\
  (opt_machineId o = None ->
   hostname_digest h1 <> None -> hostname_digest h2 = hostname_digest h1 ->
   id1 = id2) /\
  w_clock w2 = rest /\ default_state w2 = default_state w.
Proof.
  intros Hrandom1 Hrandom2 Hclock Ht Hfirst Hsecond.
  destruct (generateSnowflakeId_options_fresh dg o h1 w id1 w1 now1 t
              (now2 :: t :: rest) Hrandom1 Hclock Ht Hfirst)
    as (Hclock1 & Hdefault1 & m1 & e1 & Hm1 & Hr1 & He1 & ->).
  destruct (generateSnowflakeId_options_fresh dg o h2 w1 id2 w2 now2 t
              rest Hrandom2 Hclock1 Ht Hsecond)
    as (Hclock2 & Hdefault2 & m2 & e2 & Hm2 & Hr2 & He2 & ->).
  assert (He : e1 = e2) by congruence. subst e2.
  assert (Hiff : toString (packed (t - e1) m1 0) = toString (packed (t - e1) m2 0)
                 <-> nullish (opt_machineId o) (derived_machineId h1)
                     = nullish (opt_machineId o) (derived_machineId h2)).
  { rewrite Hm1, Hm2. split.
    - intros Heq. apply (f_equal BigInt_of_string) in Heq.
      rewrite !BigInt_of_toString in Heq. injection Heq as Heq.
      unfold packed in Heq. f_equal. lia.
    - intros [= ->]. reflexivity. }
  split; [ exact Hiff | ].
  split; [ | split; [ | split; [ exact Hclock2 | congruence ] ] ].
  - intros Hgiven. apply Hiff.
    destruct (opt_machineId o); [ reflexivity | contradiction ].
  - intros Hnone Hsome Hsame. apply Hiff. rewrite Hnone. cbn [nullish].
    unfold derived_machineId. rewrite Hsame.
    destruct (hostname_digest h1); [ reflexivity | contradiction ].
Qed.

Lemma generateSnowflakeId_options_repeats_id_witness :
  (random_in_unit_interval host_half /\ random_in_unit_interval host_quarter /\
   w_clock (mkWorld (mkState 7 900) [999; 1000; 1000; 1000; 1001] [])
   = 999 :: 1000 :: 1000 :: 1000 :: [1001] /\ 0 <= 1000 /\
   generateSnowflakeId generator5 (Some (mkOptions (Some (NInt 5)) (Some (NInt 0)) None))
     host_half (mkWorld (mkState 7 900) [999; 1000; 1000; 1000; 1001] [])
   = Returned "4194324480"%string (mkWorld (mkState 7 900) [1000; 1000; 1001] []) /\
   generateSnowflakeId generator5 (Some (mkOptions (Some (NInt 5)) (Some (NInt 0)) None))
     host_quarter (mkWorld (mkState 7 900) [1000; 1000; 1001] [])
   = Returned "4194324480"%string (mkWorld (mkState 7 900) [1001] []) /\
   opt_machineId (mkOptions (Some (NInt 5)) (Some (NInt 0)) None) <> None) /\
  "4194324480"%string = "4194324480"%string.
Proof.
  assert (Hhalf : random_in_unit_interval host_half)
    by (unfold random_in_unit_interval; simpl; lia).
  assert (Hquarter : random_in_unit_interval host_quarter)
    by (unfold random_in_unit_interval; simpl; lia).
  assert (Hgiven : opt_machineId (mkOptions (Some (NInt 5)) (Some (NInt 0)) None)
                   <> None) by discriminate.
  split; [ split; [ exact Hhalf | split; [ exact Hquarter | ] ];
           repeat split; trivial; lia | ].
  refine (proj1 (proj2 (generateSnowflakeId_options_repeats_id generator5
            (mkOptions (Some (NInt 5)) (Some (NInt 0)) None)
            host_half host_quarter
            (mkWorld (mkState 7 900) [999; 1000; 1000; 1000; 1001] [])
            (mkWorld (mkState 7 900) [1000; 1000; 1001] [])
            (mkWorld (mkState 7 900) [1001] [])
            "4194324480" "4194324480" 999 1000 1000 [1001]
            Hhalf Hquarter eq_refl _ eq_refl eq_refl)) Hgiven).
  lia.
Defined.

(** Hashing fails and the two calls draw 1/2 and 1/4: the machine ids are
    512 and 256 and the identifiers of the same millisecond differ. *)
Example generateSnowflakeId_draws_differ :
  generateSnowflakeId generator5 (Some (mkOptions None (Some (NInt 0)) None))
    host_half (mkWorld (mkState 7 900) [999; 1000; 1000; 1000; 1001] [])
  = Returned "4196401152"%string
      (mkWorld (mkState 7 900) [1000; 1000; 1001] [HostnameWarning]) /\
  generateSnowflakeId generator5 (Some (mkOptions None (Some (NInt 0)) None))
    host_quarter
    (mkWorld (mkState 7 900) [1000; 1000; 1001] [HostnameWarning])
  = Returned "4195352576"%string
      (mkWorld (mkState 7 900) [1001] [HostnameWarning; HostnameWarning]).
Proof. split; vm_compute; reflexivity. Qed.

Lemma generateSnowflakeId_default_returned (dg : Generator) (h : Host)
    (w : World) (id : string) (w' : World) :
  generateSnowflakeId dg None h w = Returned id w' ->
  exists r s',
    call dg (mkStore (default_state w) (w_clock w) (w_console w))
    = Returned r s' /\
    id = toString (gen_id r) /\
    default_state w' = state s'.
Proof.
  unfold generateSnowflakeId, on_default. rewrite generate_call.
  destruct (call dg _) as [ r s' | | ]; try discriminate.
  intros [= <- <-]. exists r, s'. auto.
Qed.

Lemma generateSnowflakeId_options_keeps_default (dg : Generator)
    (o : SnowflakeOptions) (h : Host) (w : World) :
  match generateSnowflakeId dg (Some o) h w with
  | Returned _ w' | Thrown _ w' => default_state w' = default_state w
  | Unfinished => True
  end.
Proof.
  unfold generateSnowflakeId, on_fresh.
  destruct (bind _ _ _); trivial.
Qed.

(** [generateSnowflakeId()] without options runs the module's default
    generator, whose counters persist from call to call: the identifiers of
    two such calls that return are integers in strictly increasing order,
    whatever the clock does, also when a call with options, returning or
    throwing, comes between them.  The default generator is the one the
    module makes when it loads. *)
Theorem generateSnowflakeId_default_increases (h : Host) (w0 w0' : World)
    (dg : Generator) (o : SnowflakeOptions) (w w1 w1' w2 : World)
    (id1 id2 : string) :
  random_in_unit_interval h ->
  defaultGenerator h w0 = Returned dg w0' ->
  generateSnowflakeId dg None h w = Returned id1 w1 ->
  (w1' = w1 \/
   (exists x, generateSnowflakeId dg (Some o) h w1 = Returned x w1') \/
   (exists e, generateSnowflakeId dg (Some o) h w1 = Thrown e w1')) ->
  generateSnowflakeId dg None h w1' = Returned id2 w2 ->
  default_state w0' = createGeneratorState /\
  exists n1 n2,
    BigInt_of_string id1 = Some n1 /\ BigInt_of_string id2 = Some n2 /\
    n1 < n2.
Proof.
  intros Hrandom Hload Hfirst Hbetween Hsecond.
  assert (Hg : valid_generator dg /\ default_state w0' = createGeneratorState).
  { unfold defaultGenerator, on_default in Hload.
    destruct (createSnowflakeGenerator _ h _) as [ g s' | | ] eqn:Hcreate;
      try discriminate.
    injection Hload as <- <-.
    apply (created_generator_valid _ h _ g s' Hrandom Hcreate). }
  destruct Hg as [Hg Hinit]. split; [ exact Hinit | ].
  destruct (generateSnowflakeId_default_returned dg h w id1 w1 Hfirst)
    as (r1 & s1 & Hcall1 & -> & Hstate1).
  destruct (generateSnowflakeId_default_returned dg h w1' id2 w2 Hsecond)
    as (r2 & s2 & Hcall2 & -> & _).
  assert (Hkept : default_state w1' = default_state w1).
  { pose proof (generateSnowflakeId_options_keeps_default dg o h w1) as Hkeep.
    destruct Hbetween as [ -> | [ (x & Hx) | (e & He) ] ]; trivial.
    - now rewrite Hx in Hkeep.
    - now rewrite He in Hkeep. }
  exists (gen_id r1), (gen_id r2).
  split; [ apply BigInt_of_toString | ].
  split; [ apply BigInt_of_toString | ].
  refine (proj1 (consecutive_calls_increase_any_clock dg _ s1 _ s2 r1 r2
                   Hg Hcall1 _ Hcall2)).
  cbn [state]. congruence.
Qed.

Lemma generateSnowflakeId_default_increases_witness :
  (random_in_unit_interval host_plain /\
   defaultGenerator host_plain
     (mkWorld (mkState 7 900) [1762128000000] [])
   = Returned (mkGenerator (NInt 0) DEFAULT_EPOCH true)
              (mkWorld createGeneratorState [] [HostnameWarning]) /\
   generateSnowflakeId (mkGenerator (NInt 0) DEFAULT_EPOCH true) None host_plain
     (mkWorld createGeneratorState
              [1762128000001; 1762128000000; 1762128000000; 1762128000002] [])
   = Returned "40872825547915264"%string
       (mkWorld (mkState 0 1762128000001)
                [1762128000000; 1762128000000; 1762128000002] []) /\
   generateSnowflakeId (mkGenerator (NInt 0) DEFAULT_EPOCH true) None host_plain
     (mkWorld (mkState 0 1762128000001)
              [1762128000000; 1762128000000; 1762128000002] [])
   = Returned "40872825552109568"%string
       (mkWorld (mkState 0 1762128000002) [] [DriftWarning 1])) /\
  exists n1 n2,
    BigInt_of_string "40872825547915264" = Some n1 /\
    BigInt_of_string "40872825552109568" = Some n2 /\
    n1 < n2.
Proof.
  assert (Hrandom : random_in_unit_interval host_plain)
    by (cbv; repeat split; discriminate).
  split; [ repeat split; try apply Hrandom; vm_compute; reflexivity | ].
  refine (proj2 (generateSnowflakeId_default_increases host_plain
            (mkWorld (mkState 7 900) [1762128000000] [])
            (mkWorld createGeneratorState [] [HostnameWarning])
            (mkGenerator (NInt 0) DEFAULT_EPOCH true)
            (mkOptions None None None)
            (mkWorld createGeneratorState
               [1762128000001; 1762128000000; 1762128000000; 1762128000002] [])
            (mkWorld (mkState 0 1762128000001)
               [1762128000000; 1762128000000; 1762128000002] [])
            (mkWorld (mkState 0 1762128000001)
               [1762128000000; 1762128000000; 1762128000002] [])
            (mkWorld (mkState 0 1762128000002) [] [DriftWarning 1])
            "40872825547915264" "40872825552109568"
            Hrandom _ _ (or_introl eq_refl) _));
    vm_compute; reflexivity.
Defined.

(* ===================================================================== *)
(** * Order of the identifiers and step of the sequence *)
(* ===================================================================== *)

(** For fields in range, identifiers compare as the triples (timestamp,
    machine id, sequence) do, the timestamp first: an id made in a later
    millisecond is greater whatever the machine ids and the sequences, and
    two ids are equal only if all three fields are. *)
Theorem ids_order_by_time_first (epoch t1 t2 m1 m2 q1 q2 id1 id2 : Z) :
  0 <= m1 <= 1023 -> 0 <= m2 <= 1023 ->
  0 <= q1 <= 4095 -> 0 <= q2 <= 4095 ->
  constructSnowflakeId t1 epoch (NInt m1) q1 = Normal id1 ->
  constructSnowflakeId t2 epoch (NInt m2) q2 = Normal id2 ->
  (id1 < id2 <->
   t1 < t2 \/ (t1 = t2 /\ (m1 < m2 \/ (m1 = m2 /\ q1 < q2)))) /\
  (id1 = id2 <-> t1 = t2 /\ m1 = m2 /\ q1 = q2).
Proof.
  intros Hm1 Hm2 Hq1 Hq2 Hid1 Hid2.
  rewrite constructSnowflakeId_packed in Hid1, Hid2 by assumption.
  injection Hid1 as <-. injection Hid2 as <-.
  unfold packed. split; lia.
Qed.

Lemma ids_order_by_time_first_witness :
  (0 <= 1023 <= 1023 /\ 0 <= 0 <= 1023 /\ 0 <= 4095 <= 4095 /\ 0 <= 0 <= 4095 /\
   constructSnowflakeId 1000 0 (NInt 1023) 4095 = Normal 4198498303 /\
   constructSnowflakeId 1001 0 (NInt 0) 0 = Normal 4198498304) /\
  4198498303 < 4198498304.
Proof.
  split; [ repeat split; try lia; reflexivity | ].
  refine (proj2 (proj1 (ids_order_by_time_first 0 1000 1001 1023 0 4095 0
                          4198498303 4198498304 _ _ _ _ eq_refl eq_refl))
                (or_introl _)); lia.
Defined.

(** Between two calls in a row the sequence either goes up by exactly one
    within the same millisecond, which only happens below 4095, or restarts
    from 0 in a later millisecond: a millisecond carries at most the 4096
    sequences 0 to 4095, each once. *)
Theorem sequence_steps (g : Generator) (s s1 s2 : Store) (r1 r2 : Generated) :
  call g s = Returned r1 s1 -> call g s1 = Returned r2 s2 ->
  (gen_timestamp r2 = gen_timestamp r1 /\
   gen_sequence r2 = gen_sequence r1 + 1 /\ gen_sequence r1 < 4095) \/
  (gen_timestamp r1 < gen_timestamp r2 /\ gen_sequence r2 = 0).
Proof.
  intros Hcall1 Hcall2.
  assert (Hq1 : 0 <= gen_sequence r1 <= 4095).
  { destruct (call_returned g s r1 s1 Hcall1) as (_ & _ & b & now & rest & _ & Hb).
    pose proof (bitand_MAX_SEQUENCE_range (sequence (state s) + 1)).
    destruct b; cbv zeta in Hb; decompose [and] Hb; lia. }
  destruct (call_returned g s r1 s1 Hcall1) as (Hstate1 & _ & _).
  destruct (call_returned g s1 r2 s2 Hcall2) as (_ & _ & b & now & rest & Hclock & Hb).
  rewrite Hstate1 in Hb. cbn [lastTimestamp sequence] in Hb.
  rewrite bitand_MAX_SEQUENCE in Hb.
  destruct b; cbv zeta in Hb; decompose [and] Hb; clear Hb;
    try match goal with
        | H : spin _ _ = Some _ |- _ => pose proof (spin_above _ _ _ _ H)
        end;
    try (right; split; [ lia | assumption ]).
  left.
  match goal with
  | H : gen_sequence r2 = _ mod _ |- _ => rewrite H in *
  end.
  Z.div_mod_to_equations. lia.
Qed.

Lemma sequence_steps_witness :
  (call generator5 store_exhausted
   = Returned (mkGenerated 4198518784 1001 0) store_exhausted_after1 /\
   call generator5 store_exhausted_after1
   = Returned (mkGenerated 4198518785 1001 1) store_exhausted_after2) /\
  ((1001 = 1001 /\ 1 = 0 + 1 /\ 0 < 4095) \/ (1001 < 1001 /\ 1 = 0)).
Proof.
  split; [ split; reflexivity | ].
  exact (sequence_steps generator5 store_exhausted store_exhausted_after1
           store_exhausted_after2 (mkGenerated 4198518784 1001 0)
           (mkGenerated 4198518785 1001 1) eq_refl eq_refl).
Defined.
